(** * get-npmignore: which files of a package does npm leave out?

    A shallow embedding of [lib/util/get-npmignore.js] and the properties of
    its ignore-rule resolution: the whitelist parser, the ignore-file parser,
    the never-ignored filter, the predicate combinators and the cached
    top-level resolver.

    Strings are Rocq [string]s, read as the UTF-8 bytes of the JavaScript
    string.  Every character the code inspects (the slash, the dot, the
    ASCII letters) is a single byte that never occurs inside a multi-byte
    sequence, so the byte-level operations agree with the code-unit-level
    ones of the source. *)

From Stdlib Require Import String Ascii List Bool Arith ZArith Lia.
From stdpp Require Import base option gmap strings.
Import ListNotations.

Local Open Scope string_scope.
Local Open Scope list_scope.

(** ** JavaScript values

    [package.json] is parsed JSON, so its fields are arbitrary JSON values; a
    missing field reads as [undefined]. *)

#[warnings="-register-all"]
Inductive JsValue :=
| JsUndefined
| JsNull
| JsBoolean (b : bool)
| JsNumber (n : Z) (* the code observes a number only through [!files]: zero or not *)
| JsString (s : string)
| JsArray (elems : list JsValue)
| JsObject (fields : list (string * JsValue)).

(** [!v] is [negb (truthy v)]. *)
Definition truthy (v : JsValue) : bool :=
  match v with
  | JsUndefined | JsNull => false
  | JsBoolean b => b
  | JsNumber n => negb (n =? 0)%Z
  | JsString s => negb (String.eqb s "")
  | JsArray _ | JsObject _ => true
  end.

(** [Array.isArray(v)]. *)
Definition isArray (v : JsValue) : bool :=
  match v with JsArray _ => true | _ => false end.

(** [typeof v === "string"]. *)
Definition isString (v : JsValue) : bool :=
  match v with JsString _ => true | _ => false end.

(** The indexed elements [v[0] .. v[v.length - 1]] of an array. *)
Definition elements (v : JsValue) : list JsValue :=
  match v with JsArray elems => elems | _ => [] end.

(** ** Regular-expression literals

    The two literals of the source are both anchored at the end with [$];
    [regexp] covers the literals [/body$/] and [/^body$/], with or without
    the [i] flag. *)

Module RegExp.

Inductive pattern :=
| Nothing                                   (* matches no string *)
| Empty                                     (* matches the empty string *)
| Char (c : ascii)                          (* a literal character *)
| Class (negated : bool) (cs : list ascii)  (* [abc] and [^abc] *)
| Seq (r1 r2 : pattern)
| Alt (r1 r2 : pattern)
| Star (r : pattern).

(** [r?] and [r+]. *)
Definition Opt (r : pattern) : pattern := Alt r Empty.
Definition Plus (r : pattern) : pattern := Seq r (Star r).

(** A run of literal characters, such as [readme]. *)
Fixpoint Word (w : list ascii) : pattern :=
  match w with
  | [] => Empty
  | c :: w' => Seq (Char c) (Word w')
  end.

Definition Lit (s : string) : pattern := Word (list_ascii_of_string s).

(** Canonicalize of the ECMAScript specification for a pattern without the
    [u] flag: a character is compared through its upper-case form, and a
    character outside ASCII is never identified with an ASCII one. *)
Definition canonicalize (c : ascii) : ascii :=
  let n := nat_of_ascii c in
  if (97 <=? n)%nat && (n <=? 122)%nat then ascii_of_nat (n - 32) else c.

Definition char_matches (ignoreCase : bool) (c x : ascii) : bool :=
  if ignoreCase then Ascii.eqb (canonicalize c) (canonicalize x)
  else Ascii.eqb c x.

Definition class_matches (ignoreCase negated : bool) (cs : list ascii)
    (x : ascii) : bool :=
  xorb negated (existsb (fun c => char_matches ignoreCase c x) cs).

Section Matching.
Variable ignoreCase : bool.

Fixpoint nullable (r : pattern) : bool :=
  match r with
  | Nothing => false
  | Empty => true
  | Char _ => false
  | Class _ _ => false
  | Seq r1 r2 => nullable r1 && nullable r2
  | Alt r1 r2 => nullable r1 || nullable r2
  | Star _ => true
  end.

(** What is left of [r] to match once [x] has been read. *)
Fixpoint derive (x : ascii) (r : pattern) : pattern :=
  match r with
  | Nothing => Nothing
  | Empty => Nothing
  | Char c => if char_matches ignoreCase c x then Empty else Nothing
  | Class negated cs =>
      if class_matches ignoreCase negated cs x then Empty else Nothing
  | Seq r1 r2 =>
      if nullable r1
      then Alt (Seq (derive x r1) r2) (derive x r2)
      else Seq (derive x r1) r2
  | Alt r1 r2 => Alt (derive x r1) (derive x r2)
  | Star r1 => Seq (derive x r1) (Star r1)
  end.

(** [r] matches the whole of [s]. *)
Fixpoint accepts (r : pattern) (s : list ascii) : bool :=
  match s with
  | [] => nullable r
  | x :: s' => accepts (derive x r) s'
  end.

(** The strings a pattern denotes: the reading of the regular expression
    that [accepts] decides. *)
Inductive Matches : pattern -> list ascii -> Prop :=
| MatchesEmpty : Matches Empty []
| MatchesChar c x : char_matches ignoreCase c x = true -> Matches (Char c) [x]
| MatchesClass negated cs x :
    class_matches ignoreCase negated cs x = true -> Matches (Class negated cs) [x]
| MatchesSeq r1 r2 s1 s2 :
    Matches r1 s1 -> Matches r2 s2 -> Matches (Seq r1 r2) (s1 ++ s2)
| MatchesAltL r1 r2 s : Matches r1 s -> Matches (Alt r1 r2) s
| MatchesAltR r1 r2 s : Matches r2 s -> Matches (Alt r1 r2) s
| MatchesStarNil r : Matches (Star r) []
| MatchesStarApp r s1 s2 :
    Matches r s1 -> Matches (Star r) s2 -> Matches (Star r) (s1 ++ s2).

(** The start of the leftmost match of [/r$/] in [s], counted from the
    position [i] of [s] in the whole input: the first suffix [r] matches
    in full. *)
Fixpoint leftmost (r : pattern) (i : nat) (s : list ascii) : option nat :=
  if accepts r s then Some i
  else match s with
       | [] => None
       | _ :: s' => leftmost r (S i) s'
       end.
End Matching.

Record regexp := {
  anchoredAtStart : bool;   (* the literal begins with ^ *)
  body : pattern;
  ignoreCase : bool         (* the i flag *)
}.

(** Where [re] matches in [s], if anywhere: the index its match starts at.
    The match always runs to the end of [s]. *)
Definition exec (re : regexp) (s : list ascii) : option nat :=
  if anchoredAtStart re
  then if accepts (ignoreCase re) (body re) s then Some 0 else None
  else leftmost (ignoreCase re) (body re) 0 s.

(** [re.test(s)]. *)
Definition test (re : regexp) (s : string) : bool :=
  match exec re (list_ascii_of_string s) with
  | Some _ => true
  | None => false
  end.

(** [s.replace(re, newSubstr)] for a [newSubstr] without [$] escapes: the
    first match, which reaches the end of [s], gives way to [newSubstr]. *)
Definition replace (re : regexp) (s newSubstr : string) : string :=
  match exec re (list_ascii_of_string s) with
  | Some i => string_of_list_ascii (firstn i (list_ascii_of_string s)) +:+ newSubstr
  | None => s
  end.

End RegExp.

Import RegExp(Char, Class, Seq, Alt, Star, Opt, Plus, Lit).

(** [var TAIL_SLASH = /\/+$/;] *)
Definition TAIL_SLASH : RegExp.regexp :=
  {| RegExp.anchoredAtStart := false;
     RegExp.body := Plus (Char "/");
     RegExp.ignoreCase := false |}.

(** [var NEVER_IGNORED], the literal (spaces added for reading)
    [/^(?: readme\.[^\.]* | (?:licen[cs]e|changes|changelog|history) (?:\.[^\.]* )? )$/i]. *)
Definition NEVER_IGNORED : RegExp.regexp :=
  {| RegExp.anchoredAtStart := true;
     RegExp.body :=
       Alt (Seq (Lit "readme") (Seq (Char ".") (Star (Class true ["."%char]))))
           (Seq (Alt (Seq (Lit "licen") (Seq (Class false ["c"; "s"]%char) (Lit "e")))
                (Alt (Lit "changes")
                (Alt (Lit "changelog")
                     (Lit "history"))))
                (Opt (Seq (Char ".") (Star (Class true ["."%char])))));
     RegExp.ignoreCase := true |}.

(** ** Node's [path] module (POSIX flavour)

    [var path = require("path")].  The three functions the source calls,
    after Node's [lib/path.js]: [basename] and [dirname] scan from the end of
    the string, [join] concatenates with a slash and normalizes. *)

Module path.

Definition isPosixPathSeparator (c : ascii) : bool := Ascii.eqb c "/".

Fixpoint dropWhile {A} (f : A -> bool) (l : list A) : list A :=
  match l with
  | [] => []
  | x :: l' => if f x then dropWhile f l' else l
  end.

Fixpoint takeWhile {A} (f : A -> bool) (l : list A) : list A :=
  match l with
  | [] => []
  | x :: l' => if f x then x :: takeWhile f l' else []
  end.

Definition notSeparator (c : ascii) : bool := negb (isPosixPathSeparator c).

(** [path.basename(p)]: going backwards, skip the trailing separators, then
    collect characters up to the next separator. *)
Definition basename (p : string) : string :=
  let backwards := rev (list_ascii_of_string p) in
  let fromEnd := dropWhile isPosixPathSeparator backwards in
  string_of_list_ascii (rev (takeWhile notSeparator fromEnd)).

(** [path.dirname(p)]: the backwards scan stops at index 1; it skips the
    trailing separators and the last component, and cuts at the separator
    before it. *)
Definition dirname (p : string) : string :=
  match list_ascii_of_string p with
  | [] => "."
  | first :: rest =>
      let hasRoot := isPosixPathSeparator first in
      let backwards := rev rest in
      let fromEnd := dropWhile isPosixPathSeparator backwards in
      match dropWhile notSeparator fromEnd with
      | [] => if hasRoot then "/" else "."
      | _ :: before =>
          (* the separator found sits at index [1 + length before] *)
          if hasRoot && Nat.eqb (List.length before) 0 then "//"
          else string_of_list_ascii (first :: rev before)
      end
  end.

(** The components of a path: what stands between separators. *)
Fixpoint segments (s : list ascii) : list (list ascii) :=
  match s with
  | [] => [[]]
  | c :: s' =>
      if isPosixPathSeparator c then [] :: segments s'
      else match segments s' with
           | seg :: others => (c :: seg) :: others
           | [] => [[c]]
           end
  end.

Definition isDot (seg : list ascii) : bool :=
  match seg with ["."%char] => true | _ => false end.
Definition isDotDot (seg : list ascii) : bool :=
  match seg with ["."%char; "."%char] => true | _ => false end.
Definition isEmpty (seg : list ascii) : bool :=
  match seg with [] => true | _ => false end.

(** [normalizeString]: resolve [.] and [..] components and drop empty
    ones.  [res] holds the components kept so far, the last one first. *)
Fixpoint normalizeString (allowAboveRoot : bool) (res : list (list ascii))
    (segs : list (list ascii)) : list (list ascii) :=
  match segs with
  | [] => rev res
  | seg :: segs' =>
      if isEmpty seg || isDot seg then normalizeString allowAboveRoot res segs'
      else if isDotDot seg then
        match res with
        | last :: res' =>
            if isDotDot last then
              normalizeString allowAboveRoot
                (if allowAboveRoot then seg :: res else res) segs'
            else normalizeString allowAboveRoot res' segs'
        | [] =>
            normalizeString allowAboveRoot
              (if allowAboveRoot then [seg] else []) segs'
        end
      else normalizeString allowAboveRoot (seg :: res) segs'
  end.

Fixpoint joinSegments (segs : list (list ascii)) : list ascii :=
  match segs with
  | [] => []
  | [seg] => seg
  | seg :: segs' => seg ++ "/"%char :: joinSegments segs'
  end.

(** [path.normalize(p)]. *)
Definition normalize (p : string) : string :=
  match list_ascii_of_string p with
  | [] => "."
  | first :: rest =>
      let isAbsolute := isPosixPathSeparator first in
      let trailingSeparator := isPosixPathSeparator (List.last rest first) in
      let res := joinSegments
                   (normalizeString (negb isAbsolute) [] (segments (first :: rest))) in
      match res with
      | [] => if isAbsolute then "/" else if trailingSeparator then "./" else "."
      | _ =>
          let res := if trailingSeparator then res ++ ["/"%char] else res in
          string_of_list_ascii (if isAbsolute then "/"%char :: res else res)
      end
  end.

(** [path.join(a, b)]: empty arguments are left out. *)
Definition join (a b : string) : string :=
  match a, b with
  | "", "" => "."
  | "", _ => normalize b
  | _, "" => normalize a
  | _, _ => normalize (a +:+ "/" +:+ b)
  end.

End path.

(** ** Predicates, the Matcher and the manifest *)

Definition Predicate := string -> bool.

(** The object the resolver returns: [{match: ...}]. *)
Record Matcher := { match_ : Predicate }.

(** What [getPackageJson] hands over: the parsed [package.json] with the
    path of the file it was read from. *)
Record Manifest := {
  filePath : string;
  files : JsValue;
  main : JsValue
}.

(** ** The collaborators

    The modules the source requires and this file does not define, as one
    environment: the manifest locator, the existence check, the content of
    the ignore files and the pattern engine behind [Ignore]. *)
Record World := {
  (* [require("./get-package-json")]: the manifest for a start path, or null *)
  getPackageJson : string -> option Manifest;
  (* [require("./exists")] *)
  fileExists : string -> bool;
  (* the pattern lines [Ignore] reads from an ignore file *)
  readLines : string -> list string;
  (* [require("ignore")] with [{twoGlobstars: true}]: the filter the engine
     builds from the patterns added so far, in order; a filter answers
     [true] for a path that is kept *)
  compile : list string -> Predicate
}.

(** ** State: the module-level cache and the file-system accesses *)

Inductive FsOp :=
| Exists (file : string)     (* [exists(file)] *)
| ReadFile (file : string).  (* [ignore.addIgnoreFile(file)] *)

Record State := {
  cache : gmap string Matcher;   (* [var cache = new Cache()] *)
  trace : list FsOp              (* the accesses made so far, oldest first *)
}.

Definition M (A : Type) : Type := State -> A * State.

Definition ret {A} (a : A) : M A := fun st => (a, st).

Definition bind {A B} (m : M A) (k : A -> M B) : M B :=
  fun st => let (a, st') := m st in k a st'.

Notation "'let*' x ':=' m 'in' k" := (bind m (fun x => k))
  (at level 10, x name, m at level 100, k at level 200).

Definition record (op : FsOp) : M unit :=
  fun st => (tt, {| cache := cache st; trace := trace st ++ [op] |}).

(** Modelled from the spec: [./cache], the memoization store of section 6,
    [get(key) -> Matcher | absent] and [put(key, value) -> void].  Sections
    3 and 6 leave eviction to the cache: an entry may be dropped at any time,
    at the cache's discretion.  [evict] is that step; it is the cache's own,
    the resolver never takes it.  An entry that has expired by the time it
    is looked up is an entry evicted just before the call. *)
Module Cache.
Definition new : gmap string Matcher := ∅.

Definition get (key : string) : M (option Matcher) :=
  fun st => (cache st !! key, st).

Definition put (key : string) (value : Matcher) : M unit :=
  fun st => (tt, {| cache := <[key := value]> (cache st); trace := trace st |}).

Definition evict (key : string) : M unit :=
  fun st => (tt, {| cache := delete key (cache st); trace := trace st |}).
End Cache.

(** The state the module is loaded in. *)
Definition initial : State := {| cache := Cache.new; trace := [] |}.

(** ** Helpers *)

(** [function alwaysFalse() { return false; }] *)
Definition alwaysFalse : Predicate := fun _ => false.

Module Fn.
(** [and(f, g)], [or(f, g)] and [not(f)]. *)
Definition and (f g : Predicate) : Predicate :=
  fun filePath => f filePath && g filePath.

Definition or (f g : Predicate) : Predicate :=
  fun filePath => f filePath || g filePath.

Definition not (f : Predicate) : Predicate :=
  fun filePath => negb (f filePath).
End Fn.

(** [a === b] for a string [a] and a [b] that is a string or null. *)
Definition strictEquals (a : string) (b : option string) : bool :=
  match b with
  | Some b' => String.eqb a b'
  | None => false
  end.

(** The three conjuncts of the filter, in the order of the source. *)
Definition notMainFile (basedir : string) (mainFilePath : option string) : Predicate :=
  fun filePath => negb (strictEquals (path.join basedir filePath) mainFilePath).

Definition notPackageJson : Predicate :=
  fun filePath => negb (String.eqb filePath "package.json").

Definition notProtectedName : Predicate :=
  fun filePath => negb (RegExp.test NEVER_IGNORED (path.basename filePath)).

(** [mainFilePath] of [filterNeverIgnoredFiles]. *)
Definition mainFilePathOf (p : Manifest) : option string :=
  match main p with
  | JsString m => Some (path.join (path.dirname (filePath p)) m)
  | _ => None
  end.

Definition filterNeverIgnoredFiles (p : Manifest) : Predicate :=
  let basedir := path.dirname (filePath p) in
  let mainFilePath := mainFilePathOf p in
  fun filePath =>
    notMainFile basedir mainFilePath filePath &&
    notPackageJson filePath &&
    notProtectedName filePath.

(** The [Ignore] object: it collects patterns; the engine turns them into a
    filter. *)
Module Ignore.
Record t := { patterns : list string }.

Definition new : t := {| patterns := [] |}.

Definition addPattern (ignore : t) (pattern : string) : t :=
  {| patterns := patterns ignore ++ [pattern] |}.

Definition addIgnoreFile (w : World) (ignore : t) (file : string) : M t :=
  let* _ := record (ReadFile file) in
  ret {| patterns := patterns ignore ++ readLines w file |}.

Definition createFilter (w : World) (ignore : t) : Predicate :=
  compile w (patterns ignore).
End Ignore.

Section Resolver.
Variable w : World.

(** [exists(file)], recorded. *)
Definition exists_ (file : string) : M bool :=
  let* _ := record (Exists file) in
  ret (fileExists w file).

(** One turn of the loop of [parseWhiteList]. *)
Definition addWhiteListEntry (ignore : Ignore.t) (file : JsValue) : Ignore.t :=
  match file with
  | JsString file =>
      let ignore := Ignore.addPattern ignore ("!" +:+ file) in
      Ignore.addPattern ignore ("!" +:+ RegExp.replace TAIL_SLASH file "" +:+ "/**")
  | _ => ignore
  end.

Definition parseWhiteList (files : JsValue) : option Predicate :=
  if negb (truthy files) || negb (isArray files) then None
  else
    let ignore := Ignore.new in
    let ignore := Ignore.addPattern ignore "*" in
    let ignore := fold_left addWhiteListEntry (elements files) ignore in
    Some (Fn.not (Ignore.createFilter w ignore)).

(** The first half of [parseNpmignore]: the ignore file to read, or none
    where the source returns null. *)
Definition chooseIgnoreFile (basedir : string) (filesFieldExists : bool)
    : M (option string) :=
  let filePath := path.join basedir ".npmignore" in
  let* found := exists_ filePath in
  if negb found then
    if filesFieldExists then ret None
    else
      let filePath := path.join basedir ".gitignore" in
      let* found := exists_ filePath in
      if negb found then ret None else ret (Some filePath)
  else ret (Some filePath).

Definition parseNpmignore (basedir : string) (filesFieldExists : bool)
    : M (option Predicate) :=
  let* chosen := chooseIgnoreFile basedir filesFieldExists in
  match chosen with
  | None => ret None
  | Some filePath =>
      let ignore := Ignore.new in
      let* ignore := Ignore.addIgnoreFile w ignore filePath in
      ret (Some (Fn.not (Ignore.createFilter w ignore)))
  end.

(** [Boolean(f)] for a function or null. *)
Definition Boolean {A} (f : option A) : bool :=
  match f with Some _ => true | None => false end.

(** The branches that assign [retv.match]. *)
Definition combine (p : Manifest) (filesIgnore npmignoreIgnore : option Predicate)
    (retv : Matcher) : Matcher :=
  match filesIgnore, npmignoreIgnore with
  | Some filesIgnore, Some npmignoreIgnore =>
      {| match_ := Fn.and (filterNeverIgnoredFiles p)
                          (Fn.or filesIgnore npmignoreIgnore) |}
  | Some filesIgnore, None =>
      {| match_ := Fn.and (filterNeverIgnoredFiles p) filesIgnore |}
  | None, Some npmignoreIgnore =>
      {| match_ := Fn.and (filterNeverIgnoredFiles p) npmignoreIgnore |}
  | None, None => retv
  end.

Definition getNpmignore (startPath : string) : M Matcher :=
  let retv := {| match_ := alwaysFalse |} in
  match getPackageJson w startPath with
  | Some p =>
      let* data := Cache.get (filePath p) in
      match data with
      | Some data => ret data
      | None =>
          let filesIgnore := parseWhiteList (files p) in
          let* npmignoreIgnore :=
            parseNpmignore (path.dirname (filePath p)) (Boolean filesIgnore) in
          let retv := combine p filesIgnore npmignoreIgnore retv in
          let* _ := Cache.put (filePath p) retv in
          ret retv
      end
  | None => ret retv
  end.

End Resolver.

(** ** A reference pattern engine

    The resolver is stated for every engine.  To run it on concrete packages
    one engine is fixed here, with the gitignore semantics the resolver
    expects of [Ignore]: blank lines and [#] comments are skipped, [!]
    negates, a trailing slash restricts a pattern to directories, a pattern
    with an inner or leading slash is anchored at the package root, a single
    star stays inside one path component, a double star crosses components,
    and the last pattern that matches a path decides.  Like [Ignore], it
    compiles a pattern into a regular expression. *)
Module Gitignore.

Definition anyChar : RegExp.pattern := Class true [].
Definition noSlash : RegExp.pattern := Class true ["/"%char].
Definition subtree : RegExp.pattern := Seq (Char "/") (Star anyChar).

Fixpoint glob (g : list ascii) : RegExp.pattern :=
  match g with
  | [] => RegExp.Empty
  | c :: g1 =>
      if Ascii.eqb c "*" then
        match g1 with
        | c1 :: g2 =>
            if Ascii.eqb c1 "*" then
              match g2 with
              | c2 :: g3 =>
                  if Ascii.eqb c2 "/"
                  then Seq (Opt (Seq (Star anyChar) (Char "/"))) (glob g3)
                  else Seq (Star anyChar) (glob g2)
              | [] => Star anyChar
              end
            else Seq (Star noSlash) (glob g1)
        | [] => Star noSlash
        end
      else if Ascii.eqb c "?" then Seq noSlash (glob g1)
      else Seq (Char c) (glob g1)
  end.

Record rule := { negative : bool; regex : RegExp.pattern }.

Definition hasSlash (g : list ascii) : bool :=
  existsb path.isPosixPathSeparator g.

(** The rule of a pattern already stripped of its [!]. *)
Definition ruleOf (negative : bool) (g : list ascii) : rule :=
  let backwards := rev g in
  let dirOnly := match backwards with c :: _ => Ascii.eqb c "/" | [] => false end in
  let g := if dirOnly then rev (tl backwards) else g in
  let anchored := hasSlash g in
  let g := match g with
           | c :: g' => if Ascii.eqb c "/" then g' else g
           | [] => g
           end in
  {| negative := negative;
     regex := Seq (if anchored then RegExp.Empty
                   else Opt (Seq (Star anyChar) (Char "/")))
                  (Seq (glob g) (if dirOnly then subtree else Opt subtree)) |}.

Definition parse (line : string) : option rule :=
  match list_ascii_of_string line with
  | [] => None
  | c :: g =>
      if Ascii.eqb c "#" then None
      else if Ascii.eqb c "!" then Some (ruleOf true g)
      else Some (ruleOf false (c :: g))
  end.

(** One pattern applied to the verdict reached so far. *)
Definition apply (file : list ascii) (ignored : bool) (line : string) : bool :=
  match parse line with
  | Some r => if RegExp.accepts false (regex r) file then negb (negative r) else ignored
  | None => ignored
  end.

Definition ignores (patterns : list string) (file : string) : bool :=
  fold_left (apply (list_ascii_of_string file)) patterns false.

(** [createFilter()]: true for the paths that are kept. *)
Definition filter (patterns : list string) : Predicate :=
  fun file => negb (ignores patterns file).

End Gitignore.

(** ** Concrete packages *)

Module Packages.

(** A package at [/pkg] whose manifest has the given [files] and [main],
    with the given ignore files on disk. *)
Definition manifest (files main : JsValue) : Manifest :=
  {| filePath := "/pkg/package.json"; files := files; main := main |}.

Definition package (files main : JsValue) (disk : list (string * list string))
    : World :=
  {| getPackageJson := fun _ => Some (manifest files main);
     fileExists := fun file =>
       existsb (fun entry => String.eqb (fst entry) file) disk;
     readLines := fun file =>
       match find (fun entry => String.eqb (fst entry) file) disk with
       | Some entry => snd entry
       | None => []
       end;
     compile := Gitignore.filter |}.

(** No [package.json] anywhere above the start path. *)
Definition nowhere : World :=
  {| getPackageJson := fun _ => None;
     fileExists := fun _ => false;
     readLines := fun _ => [];
     compile := Gitignore.filter |}.

(** [.npmignore] holds the single line [*]; no [files], main [index.js]. *)
Definition starIgnored : World :=
  package JsUndefined (JsString "index.js") [("/pkg/.npmignore", ["*"])].

(** [files: ["lib"]] and no ignore file. *)
Definition libOnly : World :=
  package (JsArray [JsString "lib"]) JsUndefined [].

(** [files: []] and no ignore file. *)
Definition emptyFiles : World :=
  package (JsArray []) JsUndefined [].

(** Both a [files] field and an [.npmignore]. *)
Definition both : World :=
  package (JsArray [JsString "lib/"; JsNumber 3; JsString "bin"]) (JsString "./lib/index.js")
    [("/pkg/.npmignore", ["# tests"; ""; "lib/test/"; "*.log"]); ("/pkg/.gitignore", ["*"])].

(** Neither. *)
Definition bare : World :=
  package JsUndefined (JsString "index.js") [].

(** Only a [.gitignore]. *)
Definition gitOnly : World :=
  package JsNull JsUndefined [("/pkg/.gitignore", ["node_modules"; "!keep.txt"])].

(** [.npmignore] holds the single line [*]; neither [files] nor [main]. *)
Definition starNoMain : World :=
  package JsUndefined JsNull [("/pkg/.npmignore", ["*"])].

Definition run (w : World) (file : string) : bool :=
  match_ (fst (getNpmignore w "/pkg/lib/index.js" initial)) file.

End Packages.

(** ** The claims' words, to compare the code with *)

(** A path with its trailing slashes stripped. *)
Definition strip (l : list ascii) : list ascii :=
  rev (path.dropWhile path.isPosixPathSeparator (rev l)).

Definition stripTailSlashes (file : string) : string :=
  string_of_list_ascii (strip (list_ascii_of_string file)).

(** The patterns the whitelist parser derives from one entry of [files]. *)
Definition entryPatterns (entry : JsValue) : list string :=
  match entry with
  | JsString f => ["!" +:+ f; "!" +:+ stripTailSlashes f +:+ "/**"]
  | _ => []
  end.

(** The Pattern Set of a [files] array. *)
Definition whiteListPatterns (entries : list JsValue) : list string :=
  "*" :: flat_map entryPatterns entries.

Definition lowerCase (c : ascii) : ascii :=
  let n := nat_of_ascii c in
  if (65 <=? n)%nat && (n <=? 90)%nat then ascii_of_nat (n + 32) else c.

(** [name] is [word] up to the case of its letters ([word] in lower case). *)
Definition sameName (name : list ascii) (word : string) : bool :=
  String.eqb (string_of_list_ascii (map lowerCase name)) word.

Definition noDot (ext : list ascii) : bool :=
  forallb (fun c => negb (Ascii.eqb c ".")) ext.

(** A file name cut at its first dot: the stem, and the rest when there is a
    dot. *)
Fixpoint cutAtDot (name : list ascii) : list ascii * option (list ascii) :=
  match name with
  | [] => ([], None)
  | c :: name' =>
      if Ascii.eqb c "." then ([], Some name')
      else let (stem, ext) := cutAtDot name' in (c :: stem, ext)
  end.

(** The stems that are protected with or without an extension. *)
Definition stemsOptionalExtension : list string :=
  ["license"; "licence"; "changes"; "changelog"; "history"].

(** The protected file names: [license], [licence], [changes], [changelog]
    and [history] with or without one extension, and [readme] with one; an
    extension is a dot and any characters but a dot; letter case does not
    count. *)
Definition protectedName (name : string) : bool :=
  match cutAtDot (list_ascii_of_string name) with
  | (stem, Some ext) =>
      existsb (sameName stem) ("readme" :: stemsOptionalExtension) && noDot ext
  | (stem, None) => existsb (sameName stem) stemsOptionalExtension
  end.

(** A single path component: not empty, no separator in it. *)
Definition isFileName (name : string) : bool :=
  negb (String.eqb name "")
  && forallb path.notSeparator (list_ascii_of_string name).

(** A run of [k] slashes. *)
Definition slashes (k : nat) : string := string_of_list_ascii (repeat "/"%char k).

(** The path ends with a slash. *)
Definition endsWithSlash (file : string) : bool :=
  match rev (list_ascii_of_string file) with
  | c :: _ => path.isPosixPathSeparator c
  | [] => false
  end.

(** An extension: a dot, then characters that are no dot. *)
Definition isExtension (rest : list ascii) : Prop :=
  exists ext, rest = "."%char :: ext /\ noDot ext = true.

(** The accesses a cache miss makes for the manifest [p]. *)
Definition missAccesses (w : World) (p : Manifest) : list FsOp :=
  let basedir := path.dirname (filePath p) in
  let npmignore := path.join basedir ".npmignore" in
  let gitignore := path.join basedir ".gitignore" in
  if fileExists w npmignore then [Exists npmignore; ReadFile npmignore]
  else if isArray (files p) then [Exists npmignore]
  else if fileExists w gitignore
  then [Exists npmignore; Exists gitignore; ReadFile gitignore]
  else [Exists npmignore; Exists gitignore].

(** ** The states the module can be in *)

(** The Matcher a cache miss builds for the manifest [p]. *)
Definition resolve (w : World) (p : Manifest) : Matcher :=
  let filesIgnore := parseWhiteList w (files p) in
  let npmignoreIgnore :=
    fst (parseNpmignore w (path.dirname (filePath p)) (Boolean filesIgnore) initial) in
  combine p filesIgnore npmignoreIgnore {| match_ := alwaysFalse |}.

(** The states reached from the initial one by calls of [getNpmignore],
    with the cache free to evict entries in between. *)
Inductive reachable (w : World) : State -> Prop :=
| reachable_initial : reachable w initial
| reachable_call st startPath :
    reachable w st -> reachable w (snd (getNpmignore w startPath st))
| reachable_evict st key :
    reachable w st -> reachable w (snd (Cache.evict key st)).

(** The locator reads the manifest from the file it names: two start paths
    that lead to the same [package.json] get the same manifest. *)
Definition manifestPerFile (w : World) : Prop :=
  forall s1 s2 p1 p2,
    getPackageJson w s1 = Some p1 -> getPackageJson w s2 = Some p2 ->
    filePath p1 = filePath p2 -> p1 = p2.

(** * Properties *)

(** ** Regular expressions: [accepts] decides [Matches] *)

Section RegExpFacts.
Variable ic : bool.

Local Abbreviation Matches := (RegExp.Matches ic).
Local Abbreviation derive := (RegExp.derive ic).

Lemma nullable_sound r : RegExp.nullable r = true -> Matches r [].
Proof.
  induction r; simpl; intros Hn; try discriminate.
  - constructor.
  - apply andb_true_iff in Hn as [H1 H2].
    change (@nil ascii) with (@nil ascii ++ []). constructor; auto.
  - apply orb_true_iff in Hn as [H|H]; [apply RegExp.MatchesAltL|apply RegExp.MatchesAltR]; auto.
  - constructor.
Qed.

Lemma nullable_complete r s : Matches r s -> s = [] -> RegExp.nullable r = true.
Proof.
  induction 1; intros Hs; simpl; try discriminate; auto.
  - apply app_eq_nil in Hs as [-> ->]. rewrite IHMatches1, IHMatches2; auto.
  - rewrite IHMatches; auto.
  - rewrite IHMatches; auto using orb_true_r.
Qed.

Lemma derive_sound x r : forall s, Matches (derive x r) s -> Matches r (x :: s).
Proof.
  induction r; simpl; intros s H.
  - inversion H.
  - inversion H.
  - destruct (RegExp.char_matches ic c x) eqn:E; inversion H; subst. now constructor.
  - destruct (RegExp.class_matches ic negated cs x) eqn:E; inversion H; subst.
    now constructor.
  - destruct (RegExp.nullable r1) eqn:E.
    + inversion H as [| | | | ? ? ? H1 | ? ? ? H2 | |]; subst.
      * inversion H1; subst.
        change (x :: s1 ++ s2) with ((x :: s1) ++ s2). constructor; auto.
      * change (x :: s) with ([] ++ x :: s). constructor; auto using nullable_sound.
    + inversion H; subst.
      change (x :: s1 ++ s2) with ((x :: s1) ++ s2). constructor; auto.
  - inversion H; subst; [apply RegExp.MatchesAltL|apply RegExp.MatchesAltR]; auto.
  - inversion H; subst.
    change (x :: s1 ++ s2) with ((x :: s1) ++ s2). constructor; auto.
Qed.

Lemma derive_complete x r t :
  Matches r t -> forall s, t = x :: s -> Matches (derive x r) s.
Proof.
  induction 1; intros s0 Ht; simpl; try discriminate.
  - injection Ht as ? ?; subst. rewrite H. constructor.
  - injection Ht as ? ?; subst. rewrite H. constructor.
  - destruct s1 as [|y s1]; simpl in Ht.
    + subst s2. rewrite (nullable_complete _ _ H eq_refl).
      apply RegExp.MatchesAltR; auto.
    + injection Ht as ? ?; subst.
      destruct (RegExp.nullable r1);
        [apply RegExp.MatchesAltL|]; constructor; auto.
  - apply RegExp.MatchesAltL; auto.
  - apply RegExp.MatchesAltR; auto.
  - destruct s1 as [|y s1]; simpl in Ht.
    + auto.
    + injection Ht as ? ?; subst. constructor; auto.
Qed.

Lemma accepts_Matches r s : RegExp.accepts ic r s = true <-> Matches r s.
Proof.
  revert r. induction s as [|x s IH]; intros r; simpl.
  - split; [apply nullable_sound | intros H; eapply nullable_complete; eauto].
  - rewrite IH. split; [apply derive_sound | intros H; eapply derive_complete; eauto].
Qed.

(** Inversion of the constructors that carry a word split. *)
Lemma Matches_Seq r1 r2 s :
  Matches (Seq r1 r2) s <->
  exists s1 s2, s = s1 ++ s2 /\ Matches r1 s1 /\ Matches r2 s2.
Proof.
  split.
  - intros H; inversion H; subst; eauto.
  - intros (s1 & s2 & -> & H1 & H2). now constructor.
Qed.

Lemma Matches_Alt r1 r2 s : Matches (Alt r1 r2) s <-> Matches r1 s \/ Matches r2 s.
Proof.
  split.
  - intros H; inversion H; subst; auto.
  - intros [H|H]; [apply RegExp.MatchesAltL|apply RegExp.MatchesAltR]; auto.
Qed.

Lemma Matches_Empty s : Matches RegExp.Empty s <-> s = [].
Proof. split; [intros H; now inversion H | intros ->; constructor]. Qed.

Lemma Matches_Char c s :
  Matches (Char c) s <-> exists x, s = [x] /\ RegExp.char_matches ic c x = true.
Proof.
  split.
  - intros H; inversion H; subst; eauto.
  - intros (x & -> & H). now constructor.
Qed.

Lemma Matches_Class negated cs s :
  Matches (Class negated cs) s <->
  exists x, s = [x] /\ RegExp.class_matches ic negated cs x = true.
Proof.
  split.
  - intros H; inversion H; subst; eauto.
  - intros (x & -> & H). now constructor.
Qed.

Lemma Matches_Opt r s : Matches (Opt r) s <-> Matches r s \/ s = [].
Proof. unfold Opt. now rewrite Matches_Alt, Matches_Empty. Qed.

(** A starred one-character pattern matches the strings made of such
    characters. *)
Lemma Matches_Star_one r (ok : ascii -> bool) :
  (forall s, Matches r s <-> exists x, s = [x] /\ ok x = true) ->
  forall s, Matches (Star r) s <-> forallb ok s = true.
Proof.
  intros Hr s. split.
  - intros H. remember (Star r) as r' eqn:Er.
    induction H; try discriminate; auto.
    injection Er as ->.
    apply Hr in H as (x & -> & Hx). simpl. rewrite Hx. auto.
  - induction s as [|x s IH]; simpl; intros H.
    + constructor.
    + apply andb_true_iff in H as [Hx Hs].
      change (x :: s) with ([x] ++ s). constructor; auto.
      apply Hr. eauto.
Qed.

(** A run of literal characters matches character by character. *)
Lemma Matches_Word w s :
  Matches (RegExp.Word w) s <->
  Forall2 (fun c x => RegExp.char_matches ic c x = true) w s.
Proof.
  revert s. induction w as [|c w IH]; intros s; simpl.
  - rewrite Matches_Empty. split; [intros ->; constructor | intros H; now inversion H].
  - rewrite Matches_Seq. split.
    + intros (s1 & s2 & -> & H1 & H2).
      apply Matches_Char in H1 as (x & -> & Hx). simpl.
      constructor; auto. now apply IH.
    + intros H. inversion H as [|? x ? s' Hx Hs]; subst.
      exists [x], s'. repeat split; auto.
      * apply Matches_Char; eauto.
      * now apply IH.
Qed.

End RegExpFacts.

(** ** Letter case *)

Ltac each_ascii x := destruct x as [[] [] [] [] [] [] [] []]; reflexivity.

Lemma canonicalize_lowerCase x :
  RegExp.canonicalize (lowerCase x) = RegExp.canonicalize x.
Proof. each_ascii x. Qed.

Lemma lowerCase_canonicalize x : lowerCase (RegExp.canonicalize x) = lowerCase x.
Proof. each_ascii x. Qed.

Lemma lowerCase_dot x : Ascii.eqb (lowerCase x) "." = Ascii.eqb x ".".
Proof. each_ascii x. Qed.

(** With the [i] flag two characters match when they agree in lower case. *)
Lemma char_matches_lowerCase c x :
  RegExp.char_matches true c x = true <-> lowerCase c = lowerCase x.
Proof.
  unfold RegExp.char_matches. rewrite Ascii.eqb_eq. split; intros H.
  - rewrite <- (lowerCase_canonicalize c), H. apply lowerCase_canonicalize.
  - rewrite <- (canonicalize_lowerCase c), H. apply canonicalize_lowerCase.
Qed.

(** The class [[^\.]], with or without the [i] flag. *)
Lemma class_not_dot ic x :
  RegExp.class_matches ic true ["."%char] x = negb (Ascii.eqb x ".").
Proof. destruct ic; each_ascii x. Qed.

(** The class [[cs]] under the [i] flag. *)
Lemma class_c_or_s x :
  RegExp.class_matches true false ["c"; "s"]%char x
  = Ascii.eqb (lowerCase x) "c" || Ascii.eqb (lowerCase x) "s".
Proof. each_ascii x. Qed.

Lemma Matches_Word_lowerCase w s :
  RegExp.Matches true (RegExp.Word w) s <-> map lowerCase s = map lowerCase w.
Proof.
  rewrite Matches_Word. split.
  - induction 1 as [|c x w' s' Hc _ IH]; simpl; [reflexivity|].
    apply char_matches_lowerCase in Hc. now rewrite Hc, IH.
  - revert s. induction w as [|c w' IH]; intros [|x s'] H; simpl in H;
      try discriminate; constructor.
    + apply char_matches_lowerCase. congruence.
    + apply IH. congruence.
Qed.

Lemma sameName_spec s word :
  sameName s word = true <-> map lowerCase s = list_ascii_of_string word.
Proof.
  unfold sameName. rewrite String.eqb_eq. split; intros H.
  - now rewrite <- H, list_ascii_of_string_of_list_ascii.
  - now rewrite H, string_of_list_ascii_of_string.
Qed.

(** A word written in lower case, as a pattern under the [i] flag. *)
Lemma Matches_Lit word s :
  map lowerCase (list_ascii_of_string word) = list_ascii_of_string word ->
  (RegExp.Matches true (Lit word) s <-> sameName s word = true).
Proof.
  intros Hw. unfold Lit. now rewrite Matches_Word_lowerCase, sameName_spec, Hw.
Qed.

Lemma noDot_lowerCase s : noDot (map lowerCase s) = noDot s.
Proof.
  induction s as [|x s IH]; simpl; [reflexivity|]. now rewrite lowerCase_dot, IH.
Qed.

Lemma sameName_noDot s word :
  noDot (list_ascii_of_string word) = true -> sameName s word = true -> noDot s = true.
Proof.
  intros Hw H. apply sameName_spec in H. now rewrite <- noDot_lowerCase, H.
Qed.

(** The extension [\.[^\.]*]. *)
Lemma Matches_extension ic s :
  RegExp.Matches ic (Seq (Char ".") (Star (Class true ["."%char]))) s <->
  exists ext, s = "."%char :: ext /\ noDot ext = true.
Proof.
  rewrite Matches_Seq. split.
  - intros (s1 & s2 & -> & H1 & H2).
    apply Matches_Char in H1 as (x & -> & Hx).
    assert (x = "."%char) as ->.
    { destruct ic; unfold RegExp.char_matches in Hx.
      - revert Hx. destruct x as [[] [] [] [] [] [] [] []]; simpl; congruence.
      - apply Ascii.eqb_eq in Hx. auto. }
    exists s2. split; [reflexivity|].
    eapply Matches_Star_one in H2; [exact H2|].
    intros s. rewrite Matches_Class. now setoid_rewrite class_not_dot.
  - intros (ext & -> & Hext). exists ["."%char], ext. repeat split.
    + apply Matches_Char. exists "."%char. split; [reflexivity|]. now destruct ic.
    + eapply Matches_Star_one; [|exact Hext].
      intros s. rewrite Matches_Class. now setoid_rewrite class_not_dot.
Qed.

(** ** Cutting a name at its first dot *)

Lemma cutAtDot_stem stem : noDot stem = true -> cutAtDot stem = (stem, None).
Proof.
  induction stem as [|c stem IH]; simpl; [reflexivity|]. intros H.
  apply andb_true_iff in H as [Hc Hs]. apply negb_true_iff in Hc.
  now rewrite Hc, IH.
Qed.

Lemma cutAtDot_ext stem ext :
  noDot stem = true -> cutAtDot (stem ++ "."%char :: ext) = (stem, Some ext).
Proof.
  induction stem as [|c stem IH]; simpl; [reflexivity|]. intros H.
  apply andb_true_iff in H as [Hc Hs]. apply negb_true_iff in Hc.
  now rewrite Hc, IH.
Qed.

Lemma cutAtDot_inv s :
  match cutAtDot s with
  | (stem, Some ext) => s = stem ++ "."%char :: ext /\ noDot stem = true
  | (stem, None) => s = stem /\ noDot stem = true
  end.
Proof.
  induction s as [|c s IH]; simpl; [auto|].
  destruct (Ascii.eqb c ".") eqn:E.
  - apply Ascii.eqb_eq in E as ->. auto.
  - destruct (cutAtDot s) as [stem [ext|]]; destruct IH as [-> Hs]; simpl; rewrite E; auto.
Qed.

(** ** The names [NEVER_IGNORED] matches *)

Lemma Matches_licence stem :
  RegExp.Matches true
    (Seq (Lit "licen") (Seq (Class false ["c"; "s"]%char) (Lit "e"))) stem <->
  sameName stem "license" = true \/ sameName stem "licence" = true.
Proof.
  rewrite !sameName_spec. split.
  - intros H.
    apply Matches_Seq in H as (s1 & s2 & -> & H1 & H2).
    apply Matches_Seq in H2 as (s3 & s4 & -> & H3 & H4).
    apply Matches_Lit, sameName_spec in H1; [|reflexivity].
    apply Matches_Lit, sameName_spec in H4; [|reflexivity].
    apply Matches_Class in H3 as (x & -> & Hx). rewrite class_c_or_s in Hx.
    rewrite !map_app, H1, H4. simpl.
    apply orb_true_iff in Hx as [Hx|Hx]; apply Ascii.eqb_eq in Hx; rewrite Hx; auto.
  - intros [H|H];
      destruct stem as [|x1 [|x2 [|x3 [|x4 [|x5 [|x6 [|x7 [|x8 stem]]]]]]]];
      try discriminate H; simpl in H;
      injection H as H1 H2 H3 H4 H5 H6 H7;
      apply (RegExp.MatchesSeq true _ _ [x1; x2; x3; x4; x5] [x6; x7]);
      [ apply Matches_Lit, sameName_spec; [reflexivity | simpl; congruence]
      | apply (RegExp.MatchesSeq true _ _ [x6] [x7]);
        [ constructor; rewrite class_c_or_s, H6; reflexivity
        | apply Matches_Lit, sameName_spec; [reflexivity | simpl; congruence] ]
      | apply Matches_Lit, sameName_spec; [reflexivity | simpl; congruence]
      | apply (RegExp.MatchesSeq true _ _ [x6] [x7]);
        [ constructor; rewrite class_c_or_s, H6; reflexivity
        | apply Matches_Lit, sameName_spec; [reflexivity | simpl; congruence] ] ].
Qed.

Lemma Matches_stems stem :
  RegExp.Matches true
    (Alt (Seq (Lit "licen") (Seq (Class false ["c"; "s"]%char) (Lit "e")))
    (Alt (Lit "changes") (Alt (Lit "changelog") (Lit "history")))) stem <->
  existsb (sameName stem) stemsOptionalExtension = true.
Proof.
  rewrite !Matches_Alt, Matches_licence, !Matches_Lit by reflexivity.
  simpl. rewrite !orb_true_iff. intuition discriminate.
Qed.

Lemma stems_noDot stem :
  existsb (sameName stem) ("readme" :: stemsOptionalExtension) = true ->
  noDot stem = true.
Proof.
  simpl. rewrite !orb_true_iff.
  intros [H|[H|[H|[H|[H|[H|H]]]]]]; try discriminate H;
    eapply sameName_noDot; try exact H; reflexivity.
Qed.

(** The literal and the wording agree on every name. *)
Lemma NEVER_IGNORED_protectedName name :
  RegExp.test NEVER_IGNORED name = protectedName name.
Proof.
  unfold RegExp.test, RegExp.exec, protectedName. cbn [NEVER_IGNORED RegExp.anchoredAtStart
    RegExp.body RegExp.ignoreCase].
  set (s := list_ascii_of_string name).
  match goal with |- context [RegExp.accepts true ?r s] => set (body := r) end.
  transitivity (RegExp.accepts true body s);
    [destruct (RegExp.accepts true body s); reflexivity|].
  apply eq_true_iff_eq. rewrite accepts_Matches. subst body.
  split.
  - intros H. apply Matches_Alt in H as [H|H];
      apply Matches_Seq in H as (s1 & s2 & Hs & H1 & H2); rewrite Hs.
    + apply Matches_Lit in H1; [|reflexivity].
      apply Matches_extension in H2 as (ext & -> & Hext).
      rewrite cutAtDot_ext by (apply stems_noDot; simpl; now rewrite H1).
      simpl. now rewrite H1, Hext.
    + apply Matches_stems in H1.
      apply Matches_Opt in H2 as [H2| ->].
      * apply Matches_extension in H2 as (ext & -> & Hext).
        rewrite cutAtDot_ext
          by (apply stems_noDot; cbn [existsb]; rewrite H1; apply orb_true_r).
        cbn [existsb]. now rewrite H1, orb_true_r, Hext.
      * rewrite app_nil_r.
        rewrite cutAtDot_stem
          by (apply stems_noDot; cbn [existsb]; rewrite H1; apply orb_true_r).
        exact H1.
  - pose proof (cutAtDot_inv s) as Hcut.
    destruct (cutAtDot s) as [stem [ext|]]; destruct Hcut as [Hs Hstem]; intros H;
      rewrite Hs.
    + apply andb_true_iff in H as [H Hext]. cbn [existsb] in H.
      assert (RegExp.Matches true (Seq (Char ".") (Star (Class true ["."%char])))
                ("."%char :: ext)) as Hx by (apply Matches_extension; eauto).
      apply orb_true_iff in H as [H|H].
      * apply RegExp.MatchesAltL. constructor; [|exact Hx].
        apply Matches_Lit; [reflexivity | exact H].
      * apply RegExp.MatchesAltR. constructor.
        -- now apply Matches_stems.
        -- apply Matches_Opt. now left.
    + apply RegExp.MatchesAltR. rewrite <- (app_nil_r stem). constructor.
      * now apply Matches_stems.
      * apply Matches_Opt. now right.
Qed.

(** ** [TAIL_SLASH] strips the trailing slashes *)

Lemma forallb_rev {A} (f : A -> bool) l : forallb f (rev l) = forallb f l.
Proof.
  induction l as [|x l IH]; simpl; [reflexivity|].
  rewrite forallb_app, IH. simpl. rewrite andb_true_r. apply andb_comm.
Qed.

Lemma dropWhile_all {A} (f : A -> bool) l :
  forallb f l = true -> path.dropWhile f l = [].
Proof.
  induction l as [|x l IH]; simpl; [reflexivity|].
  intros H. apply andb_true_iff in H as [-> H]. auto.
Qed.

Lemma dropWhile_snoc {A} (f : A -> bool) l x :
  forallb f l = false -> path.dropWhile f (l ++ [x]) = path.dropWhile f l ++ [x].
Proof.
  induction l as [|y l IH]; simpl; [discriminate|].
  destruct (f y); simpl; auto.
Qed.

Lemma strip_all l : forallb path.isPosixPathSeparator l = true -> strip l = [].
Proof.
  intros H. unfold strip. rewrite dropWhile_all; [reflexivity|]. now rewrite forallb_rev.
Qed.

Lemma strip_cons c l :
  forallb path.isPosixPathSeparator (c :: l) = false -> strip (c :: l) = c :: strip l.
Proof.
  unfold strip. simpl. intros H.
  destruct (forallb path.isPosixPathSeparator l) eqn:El.
  - rewrite andb_true_r in H.
    assert (path.dropWhile path.isPosixPathSeparator (rev l ++ [c]) = [c]) as ->.
    { rewrite <- forallb_rev in El. revert El.
      induction (rev l) as [|y r IH]; simpl; [now rewrite H|].
      intros E. apply andb_true_iff in E as [-> E]. auto. }
    rewrite dropWhile_all by now rewrite forallb_rev. reflexivity.
  - rewrite dropWhile_snoc by now rewrite forallb_rev.
    now rewrite rev_app_distr.
Qed.

(** The pattern [\/+] matches the non-empty runs of slashes. *)
Lemma accepts_slashes l :
  RegExp.accepts false (Plus (Char "/")) l
  = negb (Nat.eqb (List.length l) 0) && forallb path.isPosixPathSeparator l.
Proof.
  apply eq_true_iff_eq. rewrite accepts_Matches. unfold Plus.
  assert (forall s, RegExp.Matches false (Char "/") s <->
                    exists x, s = [x] /\ path.isPosixPathSeparator x = true) as Hone.
  { intros s. rewrite Matches_Char. unfold RegExp.char_matches, path.isPosixPathSeparator.
    now setoid_rewrite (Ascii.eqb_sym "/"). }
  rewrite Matches_Seq. split.
  - intros (s1 & s2 & -> & H1 & H2).
    apply Hone in H1 as (x & -> & Hx).
    apply (Matches_Star_one _ _ _ Hone) in H2. simpl. now rewrite Hx, H2.
  - destruct l as [|x l]; simpl; [discriminate|]. intros H.
    apply andb_true_iff in H as [Hx Hl].
    exists [x], l. repeat split.
    + apply Hone. eauto.
    + now apply (Matches_Star_one _ _ _ Hone).
Qed.

Lemma leftmost_strip l : forall i,
  match RegExp.leftmost false (Plus (Char "/")) i l with
  | Some j => i <= j /\ firstn (j - i) l = strip l
  | None => strip l = l
  end.
Proof.
  induction l as [|c l IH]; intros i.
  - reflexivity.
  - cbn [RegExp.leftmost]. rewrite accepts_slashes.
    cbn [List.length Nat.eqb negb andb].
    destruct (forallb path.isPosixPathSeparator (c :: l)) eqn:E.
    + split; [lia|]. rewrite Nat.sub_diag. symmetry. now apply strip_all.
    + rewrite (strip_cons _ _ E). specialize (IH (S i)).
      destruct (RegExp.leftmost false (Plus (Char "/")) (S i) l) as [j|].
      * destruct IH as [Hj IH]. split; [lia|].
        replace (j - i) with (S (j - S i)) by lia. simpl. now rewrite IH.
      * now rewrite IH.
Qed.

Lemma append_empty (s : string) : s +:+ "" = s.
Proof.
  induction s as [|c s IH]; [reflexivity|].
  change (String c s +:+ "") with (String c (s +:+ "")). now rewrite IH.
Qed.

(** The replacement in the source is the stripping of the wording. *)
Lemma replace_TAIL_SLASH file :
  RegExp.replace TAIL_SLASH file "" = stripTailSlashes file.
Proof.
  unfold RegExp.replace, RegExp.exec, stripTailSlashes.
  cbn [TAIL_SLASH RegExp.anchoredAtStart RegExp.body RegExp.ignoreCase].
  pose proof (leftmost_strip (list_ascii_of_string file) 0) as H.
  fold (strip (list_ascii_of_string file)).
  destruct (RegExp.leftmost false (Plus (Char "/")) 0 (list_ascii_of_string file)) as [j|].
  - destruct H as [_ H]. rewrite Nat.sub_0_r in H. now rewrite H, append_empty.
  - now rewrite H, string_of_list_ascii_of_string.
Qed.

(** ** The ignore-file parser *)

Section ParseNpmignore.
Variable w : World.
Variables (basedir : string) (filesFieldExists : bool) (st : State).

Let npmignore := path.join basedir ".npmignore".
Let gitignore := path.join basedir ".gitignore".
Let predicateOf (file : string) : option Predicate :=
  Some (Fn.not (compile w (readLines w file))).
Let after (ops : list FsOp) : State :=
  {| cache := cache st; trace := trace st ++ ops |}.

(** One run of the parser, with the state it leaves. *)
Lemma parseNpmignore_run :
  parseNpmignore w basedir filesFieldExists st =
  if fileExists w npmignore
  then (predicateOf npmignore, after [Exists npmignore; ReadFile npmignore])
  else if filesFieldExists then (None, after [Exists npmignore])
  else if fileExists w gitignore
  then (predicateOf gitignore,
        after [Exists npmignore; Exists gitignore; ReadFile gitignore])
  else (None, after [Exists npmignore; Exists gitignore]).
Proof.
  unfold parseNpmignore, chooseIgnoreFile, exists_, Ignore.addIgnoreFile,
    Ignore.createFilter, bind, ret, record, predicateOf, after.
  fold npmignore gitignore. cbn [Ignore.new Ignore.patterns app].
  destruct (fileExists w npmignore); cbn.
  - now rewrite <- app_assoc.
  - destruct filesFieldExists; [reflexivity|].
    destruct (fileExists w gitignore); cbn; now rewrite <- !app_assoc.
Qed.

(** C4. The parser probes [.npmignore] first and reads it when it is there;
    without it, a package with a files predicate gets no predicate and
    [.gitignore] is not even probed; without either, [.gitignore] is probed
    and read when it is there, and only when it is missing too is there no
    predicate.  The accesses appended to the trace are exactly the ones
    listed, in that order, and the cache is left alone. *)
Theorem parseNpmignore_precedence :
  (fileExists w npmignore = true ->
     parseNpmignore w basedir filesFieldExists st
     = (predicateOf npmignore, after [Exists npmignore; ReadFile npmignore])) /\
  (fileExists w npmignore = false -> filesFieldExists = true ->
     parseNpmignore w basedir filesFieldExists st
     = (None, after [Exists npmignore])) /\
  (fileExists w npmignore = false -> filesFieldExists = false ->
   fileExists w gitignore = true ->
     parseNpmignore w basedir filesFieldExists st
     = (predicateOf gitignore,
        after [Exists npmignore; Exists gitignore; ReadFile gitignore])) /\
  (fileExists w npmignore = false -> filesFieldExists = false ->
   fileExists w gitignore = false ->
     parseNpmignore w basedir filesFieldExists st
     = (None, after [Exists npmignore; Exists gitignore])).
Proof.
  rewrite parseNpmignore_run.
  repeat split; intros; repeat match goal with H : _ = _ |- _ => rewrite H; clear H end;
    reflexivity.
Qed.

End ParseNpmignore.

(** The predicate the parser returns depends on the files on disk, not on
    the state it runs in, and the parser leaves the cache alone. *)
Lemma parseNpmignore_value w basedir filesFieldExists st st' :
  fst (parseNpmignore w basedir filesFieldExists st)
  = fst (parseNpmignore w basedir filesFieldExists st').
Proof.
  rewrite !parseNpmignore_run.
  destruct (fileExists w (path.join basedir ".npmignore")); [reflexivity|].
  destruct filesFieldExists; [reflexivity|].
  destruct (fileExists w (path.join basedir ".gitignore")); reflexivity.
Qed.

Lemma parseNpmignore_cache w basedir filesFieldExists st :
  cache (snd (parseNpmignore w basedir filesFieldExists st)) = cache st.
Proof.
  rewrite parseNpmignore_run.
  destruct (fileExists w (path.join basedir ".npmignore")); [reflexivity|].
  destruct filesFieldExists; [reflexivity|].
  destruct (fileExists w (path.join basedir ".gitignore")); reflexivity.
Qed.

(** ** The three ways through [getNpmignore] *)

Lemma getNpmignore_not_found w startPath st :
  getPackageJson w startPath = None ->
  getNpmignore w startPath st = ({| match_ := alwaysFalse |}, st).
Proof. intros H. unfold getNpmignore. now rewrite H. Qed.

Lemma getNpmignore_hit w startPath st p data :
  getPackageJson w startPath = Some p ->
  cache st !! filePath p = Some data ->
  getNpmignore w startPath st = (data, st).
Proof.
  intros H Hc. unfold getNpmignore, bind, Cache.get. now rewrite H, Hc.
Qed.

Lemma getNpmignore_miss w startPath st p :
  getPackageJson w startPath = Some p ->
  cache st !! filePath p = None ->
  getNpmignore w startPath st
  = (resolve w p,
     {| cache := <[filePath p := resolve w p]> (cache st);
        trace := trace (snd (parseNpmignore w (path.dirname (filePath p))
                               (Boolean (parseWhiteList w (files p))) st)) |}).
Proof.
  intros H Hc. unfold getNpmignore, bind, Cache.get, Cache.put, ret, resolve.
  rewrite H, Hc.
  rewrite (parseNpmignore_value w _ _ initial st).
  pose proof (parseNpmignore_cache w (path.dirname (filePath p))
                (Boolean (parseWhiteList w (files p))) st) as Hk.
  destruct (parseNpmignore w (path.dirname (filePath p))
              (Boolean (parseWhiteList w (files p))) st) as [n st'].
  simpl in *. now rewrite Hk.
Qed.

(** ** What the cache holds *)

(** Every cached Matcher is the one a miss builds for a manifest that the
    locator returns for that key. *)
Lemma cache_holds_resolved w st :
  reachable w st ->
  forall key data, cache st !! key = Some data ->
  exists startPath p,
    getPackageJson w startPath = Some p /\ filePath p = key /\ data = resolve w p.
Proof.
  induction 1 as [|st startPath Hr IH|st evicted Hr IH]; intros key data Hk.
  - simpl in Hk. unfold Cache.new in Hk. rewrite lookup_empty in Hk. discriminate.
  - destruct (getPackageJson w startPath) as [p|] eqn:Hp.
    + destruct (cache st !! filePath p) as [hit|] eqn:Hc.
      * rewrite (getNpmignore_hit _ _ _ _ _ Hp Hc) in Hk. eauto.
      * rewrite (getNpmignore_miss _ _ _ _ Hp Hc) in Hk. simpl in Hk.
        destruct (decide (filePath p = key)) as [<-|Hne].
        -- rewrite lookup_insert_eq in Hk. injection Hk as <-. eauto.
        -- rewrite lookup_insert_ne in Hk by exact Hne. eauto.
    + rewrite (getNpmignore_not_found _ _ _ Hp) in Hk. eauto.
  - simpl in Hk. apply lookup_delete_Some in Hk as [_ Hk]. eauto.
Qed.

(** With a locator that reads the manifest from its file, a call returns
    the Matcher of the manifest found, from the cache or not. *)
Lemma getNpmignore_resolve w st startPath p :
  reachable w st -> manifestPerFile w ->
  getPackageJson w startPath = Some p ->
  fst (getNpmignore w startPath st) = resolve w p.
Proof.
  intros Hr Hm Hp.
  destruct (cache st !! filePath p) as [hit|] eqn:Hc.
  - rewrite (getNpmignore_hit _ _ _ _ _ Hp Hc). simpl.
    destruct (cache_holds_resolved _ _ Hr _ _ Hc) as (s0 & p0 & Hp0 & Hf & ->).
    now rewrite (Hm _ _ _ _ Hp0 Hp Hf).
  - now rewrite (getNpmignore_miss _ _ _ _ Hp Hc).
Qed.

(** Whatever manifest the locator returns, a call returns either the
    constant-false Matcher or the Matcher of some manifest. *)
Lemma getNpmignore_cases w st startPath :
  reachable w st ->
  fst (getNpmignore w startPath st) = {| match_ := alwaysFalse |}
  \/ exists p, fst (getNpmignore w startPath st) = resolve w p.
Proof.
  intros Hr. destruct (getPackageJson w startPath) as [p|] eqn:Hp.
  - right. destruct (cache st !! filePath p) as [hit|] eqn:Hc.
    + rewrite (getNpmignore_hit _ _ _ _ _ Hp Hc). simpl.
      destruct (cache_holds_resolved _ _ Hr _ _ Hc) as (s0 & p0 & _ & _ & ->). eauto.
    + rewrite (getNpmignore_miss _ _ _ _ Hp Hc). eauto.
  - left. now rewrite (getNpmignore_not_found _ _ _ Hp).
Qed.

(** ** The Matcher of a manifest *)

Lemma resolve_match w p x :
  match_ (resolve w p) x =
  match parseWhiteList w (files p),
        fst (parseNpmignore w (path.dirname (filePath p))
               (Boolean (parseWhiteList w (files p))) initial) with
  | Some f, Some n => filterNeverIgnoredFiles p x && (f x || n x)
  | Some f, None => filterNeverIgnoredFiles p x && f x
  | None, Some n => filterNeverIgnoredFiles p x && n x
  | None, None => false
  end.
Proof.
  unfold resolve, combine.
  destruct (parseWhiteList w (files p)) as [f|];
    destruct (fst (parseNpmignore w _ _ initial)) as [n|]; reflexivity.
Qed.

(** What the never-ignored filter rejects, no Matcher reports. *)
Lemma resolve_protected w p x :
  filterNeverIgnoredFiles p x = false -> match_ (resolve w p) x = false.
Proof.
  intros H. rewrite resolve_match, H.
  destruct (parseWhiteList w (files p));
    destruct (fst (parseNpmignore w _ _ initial)); reflexivity.
Qed.

Lemma getNpmignore_protected w st startPath x :
  reachable w st ->
  (forall p, filterNeverIgnoredFiles p x = false) ->
  match_ (fst (getNpmignore w startPath st)) x = false.
Proof.
  intros Hr Hx. destruct (getNpmignore_cases w st startPath Hr) as [-> | [p ->]].
  - reflexivity.
  - apply resolve_protected, Hx.
Qed.

(** C1. The Matcher conjoins the never-ignored filter with the disjunction
    of the whitelist predicate and the ignore-file predicate when both are
    produced, and with the one produced when only one is, at every path. *)
Theorem matcher_combination w st startPath p :
  reachable w st -> manifestPerFile w ->
  getPackageJson w startPath = Some p ->
  let matcher := fst (getNpmignore w startPath st) in
  let neverIgnoredFilter := filterNeverIgnoredFiles p in
  let produced :=
    (parseWhiteList w (files p),
     fst (parseNpmignore w (path.dirname (filePath p))
            (Boolean (parseWhiteList w (files p))) st)) in
  (forall whitelistIgnore npmignoreIgnore,
     produced = (Some whitelistIgnore, Some npmignoreIgnore) ->
     match_ matcher = Fn.and neverIgnoredFilter (Fn.or whitelistIgnore npmignoreIgnore)
     /\ forall x, match_ matcher x
                  = neverIgnoredFilter x && (whitelistIgnore x || npmignoreIgnore x)) /\
  (forall whitelistIgnore,
     produced = (Some whitelistIgnore, None) ->
     match_ matcher = Fn.and neverIgnoredFilter whitelistIgnore
     /\ forall x, match_ matcher x = neverIgnoredFilter x && whitelistIgnore x) /\
  (forall npmignoreIgnore,
     produced = (None, Some npmignoreIgnore) ->
     match_ matcher = Fn.and neverIgnoredFilter npmignoreIgnore
     /\ forall x, match_ matcher x = neverIgnoredFilter x && npmignoreIgnore x).
Proof.
  intros Hr Hm Hp. cbv zeta.
  rewrite (getNpmignore_resolve _ _ _ _ Hr Hm Hp).
  rewrite (parseNpmignore_value w _ _ st initial).
  unfold resolve, combine.
  repeat split; intros; match goal with H : (_, _) = (_, _) |- _ =>
    injection H as -> -> end; reflexivity.
Qed.

(** C7. Without a manifest the Matcher is the constant-false one, in any
    state; with a manifest but neither a whitelist predicate nor an
    ignore-file predicate it is the constant-false one too: nothing is ever
    ignored. *)
Theorem nothing_ignored_without_rules :
  (forall w st startPath,
     getPackageJson w startPath = None ->
     fst (getNpmignore w startPath st) = {| match_ := alwaysFalse |}
     /\ forall x, match_ (fst (getNpmignore w startPath st)) x = false) /\
  (forall w st startPath p,
     reachable w st -> manifestPerFile w ->
     getPackageJson w startPath = Some p ->
     parseWhiteList w (files p) = None ->
     fst (parseNpmignore w (path.dirname (filePath p)) false st) = None ->
     fst (getNpmignore w startPath st) = {| match_ := alwaysFalse |}
     /\ forall x, match_ (fst (getNpmignore w startPath st)) x = false).
Proof.
  split.
  - intros w st startPath Hp. now rewrite (getNpmignore_not_found _ _ _ Hp).
  - intros w st startPath p Hr Hm Hp Hf Hn.
    rewrite (getNpmignore_resolve _ _ _ _ Hr Hm Hp).
    unfold resolve, combine. rewrite Hf. cbn [Boolean].
    rewrite (parseNpmignore_value w _ _ initial st), Hn. now split.
Qed.


(** C9. When [main] is not a string there is no main file path, the
    entry-file clause holds of every candidate, and the filter is decided by
    its other two clauses alone. *)
Theorem absent_main_protects_nothing p :
  isString (main p) = false ->
  mainFilePathOf p = None /\
  forall candidate,
    notMainFile (path.dirname (filePath p)) (mainFilePathOf p) candidate = true /\
    filterNeverIgnoredFiles p candidate
    = notPackageJson candidate && notProtectedName candidate.
Proof.
  intros Hmain.
  assert (mainFilePathOf p = None) as Hnone.
  { unfold mainFilePathOf. destruct (main p); try reflexivity. discriminate. }
  split; [exact Hnone|]. intros candidate.
  unfold filterNeverIgnoredFiles. rewrite Hnone. split; reflexivity.
Qed.

(** C6. The Matcher never reports [package.json], nor any candidate whose
    path joined with the base directory equals the joined [main], the
    [main] entry itself among them, whatever the patterns say; the main
    clause of the filter rejects a candidate exactly when the two joined
    paths are equal. *)
Theorem manifest_and_main_never_ignored w st startPath p :
  reachable w st -> manifestPerFile w ->
  getPackageJson w startPath = Some p ->
  let matcher := fst (getNpmignore w startPath st) in
  let basedir := path.dirname (filePath p) in
  match_ matcher "package.json" = false /\
  (forall entry candidate,
     main p = JsString entry ->
     path.join basedir candidate = path.join basedir entry ->
     match_ matcher candidate = false) /\
  (forall entry, main p = JsString entry -> match_ matcher entry = false) /\
  (forall entry candidate,
     main p = JsString entry ->
     (notMainFile basedir (mainFilePathOf p) candidate = false
      <-> path.join basedir candidate = path.join basedir entry)).
Proof.
  intros Hr Hm Hp. cbv zeta.
  rewrite (getNpmignore_resolve _ _ _ _ Hr Hm Hp).
  assert (forall entry candidate,
            main p = JsString entry ->
            (notMainFile (path.dirname (filePath p)) (mainFilePathOf p) candidate = false
             <-> path.join (path.dirname (filePath p)) candidate
                 = path.join (path.dirname (filePath p)) entry)) as Hexact.
  { intros entry candidate He. unfold notMainFile, mainFilePathOf.
    rewrite He. cbn [strictEquals]. rewrite negb_false_iff. apply String.eqb_eq. }
  assert (forall entry candidate,
            main p = JsString entry ->
            path.join (path.dirname (filePath p)) candidate
            = path.join (path.dirname (filePath p)) entry ->
            match_ (resolve w p) candidate = false) as Hmain.
  { intros entry candidate He Hj. apply resolve_protected.
    unfold filterNeverIgnoredFiles, notMainFile, mainFilePathOf.
    rewrite He. cbn [strictEquals]. rewrite Hj, String.eqb_refl. reflexivity. }
  split; [|split; [|split]].
  - apply resolve_protected. unfold filterNeverIgnoredFiles.
    replace (notPackageJson "package.json") with false by reflexivity.
    now rewrite andb_false_r.
  - exact Hmain.
  - intros entry He. now apply (Hmain entry).
  - exact Hexact.
Qed.

(** ** The base name of a path *)

Lemma list_ascii_of_string_app a b :
  list_ascii_of_string (a +:+ b) = list_ascii_of_string a ++ list_ascii_of_string b.
Proof.
  induction a as [|c a IH]; [reflexivity|].
  change (String c a +:+ b) with (String c (a +:+ b)). simpl. now rewrite IH.
Qed.

Lemma takeWhile_stop {A} (f : A -> bool) r c rest :
  forallb f r = true -> f c = false -> path.takeWhile f (r ++ c :: rest) = r.
Proof.
  intros Hr Hc. induction r as [|x r IH]; simpl in *.
  - now rewrite Hc.
  - apply andb_true_iff in Hr as [-> Hr]. now rewrite IH.
Qed.

Lemma takeWhile_all {A} (f : A -> bool) r :
  forallb f r = true -> path.takeWhile f r = r.
Proof.
  induction r as [|x r IH]; simpl; [reflexivity|].
  intros H. apply andb_true_iff in H as [-> H]. now rewrite IH.
Qed.

Lemma dropWhile_none (f : ascii -> bool) r rest :
  r <> [] -> forallb (fun c => negb (f c)) r = true ->
  path.dropWhile f (r ++ rest) = r ++ rest.
Proof.
  destruct r as [|x r]; [congruence|]. simpl. intros _ H.
  apply andb_true_iff in H as [Hx _]. apply negb_true_iff in Hx. now rewrite Hx.
Qed.

Lemma isFileName_chars name :
  isFileName name = true ->
  rev (list_ascii_of_string name) <> []
  /\ forallb path.notSeparator (rev (list_ascii_of_string name)) = true.
Proof.
  unfold isFileName. intros H. apply andb_true_iff in H as [Hne Hall].
  split.
  - destruct name; [discriminate|]. simpl. intros E. now apply app_eq_nil in E as [_ E].
  - now rewrite forallb_rev.
Qed.

(** A file name is its own base name, alone or below a directory. *)
Lemma basename_file name : isFileName name = true -> path.basename name = name.
Proof.
  intros H. apply isFileName_chars in H as [Hne Hall]. unfold path.basename.
  rewrite <- (app_nil_r (rev (list_ascii_of_string name))).
  rewrite dropWhile_none by assumption. rewrite app_nil_r.
  rewrite takeWhile_all by assumption.
  now rewrite rev_involutive, string_of_list_ascii_of_string.
Qed.

Lemma basename_in_directory dir name :
  isFileName name = true -> path.basename (dir +:+ "/" +:+ name) = name.
Proof.
  intros H. apply isFileName_chars in H as [Hne Hall]. unfold path.basename.
  rewrite !list_ascii_of_string_app, rev_app_distr, rev_app_distr.
  change (rev (list_ascii_of_string "/")) with ["/"%char].
  rewrite <- app_assoc.
  rewrite dropWhile_none by assumption.
  cbn [app]. rewrite takeWhile_stop by (assumption || reflexivity).
  now rewrite rev_involutive, string_of_list_ascii_of_string.
Qed.

Lemma protectedName_filtered p x :
  protectedName (path.basename x) = true -> filterNeverIgnoredFiles p x = false.
Proof.
  intros H. unfold filterNeverIgnoredFiles, notProtectedName.
  rewrite NEVER_IGNORED_protectedName, H. apply andb_false_r.
Qed.

(** C2, amended. A path whose base name is [readme] with one extension, or
    one of [license], [licence], [changes], [changelog], [history] with or
    without one extension, in any letter case, is never reported ignorable,
    whatever manifest, ignore files and engine: [README.md] and [LICENSE]
    among them. *)
Theorem protected_names_never_ignored w st startPath :
  reachable w st ->
  let matcher := fst (getNpmignore w startPath st) in
  (forall x, protectedName (path.basename x) = true -> match_ matcher x = false) /\
  match_ matcher "README.md" = false /\
  match_ matcher "LICENSE" = false.
Proof.
  intros Hr. cbv zeta.
  assert (forall x, protectedName (path.basename x) = true ->
                    match_ (fst (getNpmignore w startPath st)) x = false) as H.
  { intros x Hx. apply getNpmignore_protected; [exact Hr|].
    intros p. now apply protectedName_filtered. }
  repeat split; [exact H | apply H; reflexivity | apply H; reflexivity].
Qed.

(** C10. The protected-name test looks at the base name: a protected file
    name below any directory is never reported ignorable,
    [docs/CHANGELOG.md] for one.  The manifest clause compares the whole
    path: it rejects [package.json] and nothing else, so neither it nor the
    name clause protects [sub/package.json]. *)
Theorem protection_by_basename w st startPath :
  reachable w st ->
  let matcher := fst (getNpmignore w startPath st) in
  (forall dir name,
     isFileName name = true -> protectedName name = true ->
     match_ matcher (dir +:+ "/" +:+ name) = false) /\
  match_ matcher "docs/CHANGELOG.md" = false /\
  (forall x, notPackageJson x = false <-> x = "package.json") /\
  notPackageJson "sub/package.json" = true /\
  notProtectedName "sub/package.json" = true.
Proof.
  intros Hr. cbv zeta. repeat split.
  - intros dir name Hn Hp. apply getNpmignore_protected; [exact Hr|].
    intros p. apply protectedName_filtered. now rewrite basename_in_directory.
  - apply getNpmignore_protected; [exact Hr|].
    intros p. now apply protectedName_filtered.
  - unfold notPackageJson. intros H. apply negb_false_iff in H.
    now apply String.eqb_eq.
  - intros ->. reflexivity.
Qed.

(** ** The whitelist parser *)

Lemma whiteList_loop entries : forall ignore,
  Ignore.patterns (fold_left addWhiteListEntry entries ignore)
  = Ignore.patterns ignore ++ flat_map entryPatterns entries.
Proof.
  induction entries as [|entry entries IH]; intros ignore; simpl.
  - now rewrite app_nil_r.
  - rewrite IH.
    destruct entry; simpl; try reflexivity.
    rewrite replace_TAIL_SLASH, <- !app_assoc. reflexivity.
Qed.

Lemma parseWhiteList_array w entries :
  parseWhiteList w (JsArray entries)
  = Some (Fn.not (compile w (whiteListPatterns entries))).
Proof.
  unfold parseWhiteList, Ignore.createFilter. cbn [truthy isArray negb orb elements].
  now rewrite whiteList_loop.
Qed.

Lemma parseWhiteList_not_array w files :
  isArray files = false -> parseWhiteList w files = None.
Proof.
  intros H. unfold parseWhiteList. rewrite H. cbn [negb]. now rewrite orb_true_r.
Qed.

(** C5. For a non-empty [files] array the parser compiles the Pattern Set
    that starts with the star and holds, for each string entry in turn, the
    entry behind a bang and then the entry stripped of its trailing slashes
    behind a bang and before a slash and two stars; entries that are not
    strings add nothing; the predicate returned is the negation of the
    compiled filter: true of a path exactly where the filter is false. *)
Theorem parseWhiteList_patterns w entries :
  entries <> [] ->
  parseWhiteList w (JsArray entries)
  = Some (Fn.not (compile w ("*" :: flat_map entryPatterns entries)))
  /\ (exists ignored,
        parseWhiteList w (JsArray entries) = Some ignored /\
        forall x,
          ignored x = negb (compile w ("*" :: flat_map entryPatterns entries) x))
  /\ (forall f, entryPatterns (JsString f) = ["!" +:+ f; "!" +:+ stripTailSlashes f +:+ "/**"])
  /\ (forall entry, isString entry = false -> entryPatterns entry = []).
Proof.
  intros _. split; [apply parseWhiteList_array|].
  split.
  { eexists. split; [apply parseWhiteList_array|]. intros x. reflexivity. }
  split; [reflexivity|].
  intros entry H. now destruct entry.
Qed.

(** C3, amended. The parser returns null exactly when [files] is not an
    array, the absent field included; then the Matcher is built from the
    ignore-file predicate alone.  An array without string entries, the empty
    one included, is no such case: it yields the predicate of the Pattern
    Set that holds the star alone. *)
Theorem parseWhiteList_null_iff_not_array :
  (forall w files, parseWhiteList w files = None <-> isArray files = false) /\
  (forall w, parseWhiteList w JsUndefined = None /\ parseWhiteList w JsNull = None) /\
  (forall w entries,
     forallb (fun entry => negb (isString entry)) entries = true ->
     parseWhiteList w (JsArray entries) = Some (Fn.not (compile w ["*"]))) /\
  (forall w st startPath p,
     reachable w st -> manifestPerFile w ->
     getPackageJson w startPath = Some p ->
     parseWhiteList w (files p) = None ->
     forall x,
       match_ (fst (getNpmignore w startPath st)) x
       = match fst (parseNpmignore w (path.dirname (filePath p)) false st) with
         | Some npmignoreIgnore => filterNeverIgnoredFiles p x && npmignoreIgnore x
         | None => false
         end).
Proof.
  split; [|split; [|split]].
  - intros w fs. split.
    + intros H. destruct fs; try reflexivity.
      rewrite parseWhiteList_array in H. discriminate.
    + apply parseWhiteList_not_array.
  - intros w. split; reflexivity.
  - intros w entries H. rewrite parseWhiteList_array. unfold whiteListPatterns.
    replace (flat_map entryPatterns entries) with (@nil string); [reflexivity|].
    induction entries as [|entry entries IH]; [reflexivity|].
    simpl in H. apply andb_true_iff in H as [He Hs]. simpl.
    rewrite <- (IH Hs). now destruct entry.
  - intros w st startPath p Hr Hm Hp Hf x.
    rewrite (getNpmignore_resolve _ _ _ _ Hr Hm Hp), resolve_match, Hf.
    cbn [Boolean]. now rewrite (parseNpmignore_value w _ _ initial st).
Qed.

(** ** The resolver at work on concrete packages *)

Lemma package_manifestPerFile fs entry disk :
  manifestPerFile (Packages.package fs entry disk).
Proof. intros s1 s2 p1 p2 H1 H2 _. simpl in H1, H2. congruence. Qed.

(** Section 8 of the specification: [files: ["lib"]] and no ignore file. *)
Example lib_only_package :
  map (Packages.run Packages.libOnly) ["lib/a.js"; "test/a.js"; "lib"; "package.json"]
  = [false; true; false; false].
Proof. vm_compute. reflexivity. Qed.

(** A whitelist and an [.npmignore] together: a path is ignorable when
    either says so, except for the main file. *)
Example whitelist_and_npmignore :
  map (Packages.run Packages.both)
    ["lib/a.js"; "lib/test/a.js"; "lib/index.js"; "bin/x"; "bin/x.log"; "y"]
  = [false; true; false; false; true; true]
  /\ trace (snd (getNpmignore Packages.both "/pkg/lib/index.js" initial))
     = [Exists "/pkg/.npmignore"; ReadFile "/pkg/.npmignore"].
Proof. vm_compute. split; reflexivity. Qed.

(** The pattern set of the negation round trip. *)
Example keep_txt_reincluded :
  Gitignore.ignores ["*"; "!keep.txt"] "keep.txt" = false
  /\ Gitignore.ignores ["*"; "!keep.txt"] "other.txt" = true.
Proof. vm_compute. split; reflexivity. Qed.

Example path_functions :
  path.dirname "/pkg/package.json" = "/pkg"
  /\ path.join "/pkg" "./lib/../index.js" = "/pkg/index.js"
  /\ path.join "/pkg" "null" = "/pkg/null"
  /\ path.basename "docs/CHANGELOG.md" = "CHANGELOG.md"
  /\ path.basename "lib//" = "lib".
Proof. vm_compute. repeat split; reflexivity. Qed.

(** C2, as stated, fails: with an [.npmignore] that holds the star, the
    bare [readme] is reported ignorable; the literal asks for a dot after
    [readme]. *)
Lemma bare_readme_is_ignorable :
  reachable Packages.starIgnored initial
  /\ RegExp.test NEVER_IGNORED (path.basename "readme") = false
  /\ match_ (fst (getNpmignore Packages.starIgnored "/pkg/lib/index.js" initial))
       "readme" = true.
Proof. split; [constructor|]. vm_compute. split; reflexivity. Qed.

(** C3, as stated, fails: the empty [files] array yields a predicate, and
    that predicate takes part in the Matcher: [lib/a.js] is ignorable with
    it and kept without it. *)
Lemma empty_files_array_is_a_whitelist :
  parseWhiteList Packages.emptyFiles (JsArray []) <> None
  /\ parseWhiteList Packages.emptyFiles (JsArray [JsNumber 3; JsNull]) <> None
  /\ match_ (fst (getNpmignore Packages.emptyFiles "/pkg/lib/index.js" initial))
       "lib/a.js" = true
  /\ match_ (fst (getNpmignore Packages.bare "/pkg/lib/index.js" initial))
       "lib/a.js" = false.
Proof.
  split; [discriminate|]. split; [discriminate|]. vm_compute. split; reflexivity.
Qed.

(** ** The theorems at concrete packages *)

(** C1 on the package with both a whitelist and an [.npmignore], asked a
    second time, so that the answer comes from the cache. *)
Lemma matcher_combination_witness :
  let w := Packages.both in
  let p := Packages.manifest (JsArray [JsString "lib/"; JsNumber 3; JsString "bin"])
             (JsString "./lib/index.js") in
  let st := snd (getNpmignore w "/pkg/test/a.js" initial) in
  (reachable w st /\ manifestPerFile w /\
   getPackageJson w "/pkg/lib/index.js" = Some p) /\
  exists whitelistIgnore npmignoreIgnore,
    (parseWhiteList w (files p),
     fst (parseNpmignore w (path.dirname (filePath p))
            (Boolean (parseWhiteList w (files p))) st))
    = (Some whitelistIgnore, Some npmignoreIgnore)
    /\ forall x,
         match_ (fst (getNpmignore w "/pkg/lib/index.js" st)) x
         = filterNeverIgnoredFiles p x && (whitelistIgnore x || npmignoreIgnore x).
Proof.
  cbv zeta.
  assert (reachable Packages.both
            (snd (getNpmignore Packages.both "/pkg/test/a.js" initial))) as Hr
    by (apply reachable_call, reachable_initial).
  split; [split; [exact Hr | split; [apply package_manifestPerFile | reflexivity]]|].
  eexists. eexists. split; [reflexivity|].
  intros x.
  exact (proj2 (proj1 (matcher_combination Packages.both _ "/pkg/lib/index.js" _
                         Hr (package_manifestPerFile _ _ _) eq_refl)
                  _ _ eq_refl) x).
Defined.

(** C2 on the package whose [.npmignore] holds the star. *)
Lemma protected_names_never_ignored_witness :
  let matcher := fst (getNpmignore Packages.starIgnored "/pkg/lib/index.js" initial) in
  reachable Packages.starIgnored initial /\
  (protectedName (path.basename "docs/Licence.txt") = true /\
   match_ matcher "docs/Licence.txt" = false) /\
  match_ matcher "README.md" = false /\
  match_ matcher "LICENSE" = false /\
  Gitignore.ignores ["*"] "README.md" = true.
Proof.
  cbv zeta.
  destruct (protected_names_never_ignored Packages.starIgnored initial
              "/pkg/lib/index.js" (reachable_initial _)) as (H & H1 & H2).
  split; [constructor|].
  split; [split; [reflexivity | apply H; reflexivity]|].
  repeat split; assumption || reflexivity.
Defined.

(** C3 on the package whose [files] is null, with a [.gitignore]. *)
Lemma parseWhiteList_null_iff_not_array_witness :
  let w := Packages.gitOnly in
  let p := Packages.manifest JsNull JsUndefined in
  (isArray (files p) = false /\ parseWhiteList w (files p) = None) /\
  (reachable w initial /\ manifestPerFile w /\
   getPackageJson w "/pkg/a.js" = Some p) /\
  forall x,
    match_ (fst (getNpmignore w "/pkg/a.js" initial)) x
    = filterNeverIgnoredFiles p x
      && Fn.not (Gitignore.filter ["node_modules"; "!keep.txt"]) x.
Proof.
  cbv zeta.
  destruct parseWhiteList_null_iff_not_array as (Hiff & _ & _ & Hm).
  split; [split; [reflexivity | apply Hiff; reflexivity]|].
  split; [split; [constructor | split; [apply package_manifestPerFile | reflexivity]]|].
  intros x.
  exact (Hm Packages.gitOnly initial "/pkg/a.js" _ (reachable_initial _)
           (package_manifestPerFile _ _ _) eq_refl eq_refl x).
Defined.

(** C4 with [.npmignore] present beside [.gitignore], and with only
    [.gitignore] present and no files predicate. *)
Lemma parseNpmignore_precedence_witness :
  (fileExists Packages.both "/pkg/.npmignore" = true /\
   parseNpmignore Packages.both "/pkg" true initial
   = (Some (Fn.not (Gitignore.filter ["# tests"; ""; "lib/test/"; "*.log"])),
      {| cache := ∅; trace := [Exists "/pkg/.npmignore"; ReadFile "/pkg/.npmignore"] |})) /\
  (fileExists Packages.gitOnly "/pkg/.npmignore" = false /\
   fileExists Packages.gitOnly "/pkg/.gitignore" = true /\
   parseNpmignore Packages.gitOnly "/pkg" false initial
   = (Some (Fn.not (Gitignore.filter ["node_modules"; "!keep.txt"])),
      {| cache := ∅;
         trace := [Exists "/pkg/.npmignore"; Exists "/pkg/.gitignore";
                   ReadFile "/pkg/.gitignore"] |})) /\
  (fileExists Packages.gitOnly "/pkg/.npmignore" = false /\
   parseNpmignore Packages.gitOnly "/pkg" true initial
   = (None, {| cache := ∅; trace := [Exists "/pkg/.npmignore"] |})).
Proof.
  split; [|split].
  - split; [reflexivity|].
    exact (proj1 (parseNpmignore_precedence Packages.both "/pkg" true initial) eq_refl).
  - split; [reflexivity|]. split; [reflexivity|].
    exact (proj1 (proj2 (proj2 (parseNpmignore_precedence Packages.gitOnly "/pkg" false
                                  initial))) eq_refl eq_refl eq_refl).
  - split; [reflexivity|].
    exact (proj1 (proj2 (parseNpmignore_precedence Packages.gitOnly "/pkg" true initial))
             eq_refl eq_refl).
Defined.

(** C5 on an array with a trailing slash and an entry that is no string:
    the predicate is true where the filter of the five patterns drops the
    path and false where it keeps it. *)
Lemma parseWhiteList_patterns_witness :
  [JsString "lib//"; JsNumber 3; JsString "bin"] <> [] /\
  parseWhiteList Packages.both (JsArray [JsString "lib//"; JsNumber 3; JsString "bin"])
  = Some (Fn.not (Gitignore.filter ["*"; "!lib//"; "!lib/**"; "!bin"; "!bin/**"])) /\
  exists ignored,
    parseWhiteList Packages.both (JsArray [JsString "lib//"; JsNumber 3; JsString "bin"])
    = Some ignored /\
    (Gitignore.filter ["*"; "!lib//"; "!lib/**"; "!bin"; "!bin/**"] "test/a.js" = false /\
     ignored "test/a.js" = true) /\
    (Gitignore.filter ["*"; "!lib//"; "!lib/**"; "!bin"; "!bin/**"] "lib/a.js" = true /\
     ignored "lib/a.js" = false).
Proof.
  destruct (parseWhiteList_patterns Packages.both
              [JsString "lib//"; JsNumber 3; JsString "bin"] ltac:(discriminate))
    as (Hset & (ignored & Hsome & Hneg) & _).
  split; [discriminate|]. split; [exact Hset|].
  exists ignored. split; [exact Hsome|].
  split; (split; [reflexivity | rewrite Hneg; reflexivity]).
Defined.

(** C6 on the package whose [.npmignore] holds the star and whose [main] is
    [index.js]: the pattern covers both files, the Matcher reports
    neither. *)
Lemma manifest_and_main_never_ignored_witness :
  let w := Packages.starIgnored in
  let p := Packages.manifest JsUndefined (JsString "index.js") in
  let matcher := fst (getNpmignore w "/pkg/lib/a.js" initial) in
  (reachable w initial /\ manifestPerFile w /\
   getPackageJson w "/pkg/lib/a.js" = Some p) /\
  (Gitignore.ignores ["*"] "index.js" = true /\
   Gitignore.ignores ["*"] "package.json" = true) /\
  match_ matcher "package.json" = false /\
  match_ matcher "index.js" = false /\
  match_ matcher "./lib/../index.js" = false.
Proof.
  cbv zeta.
  destruct (manifest_and_main_never_ignored Packages.starIgnored initial "/pkg/lib/a.js"
              _ (reachable_initial _) (package_manifestPerFile _ _ _) eq_refl)
    as (Hpkg & Hjoin & Hmain & _).
  split; [split; [constructor | split; [apply package_manifestPerFile | reflexivity]]|].
  split; [split; reflexivity|].
  split; [exact Hpkg|]. split.
  - exact (Hmain "index.js" eq_refl).
  - exact (Hjoin "index.js" "./lib/../index.js" eq_refl eq_refl).
Defined.

(** C7 where no manifest is found, and on the package without [files] and
    without ignore files. *)
Lemma nothing_ignored_without_rules_witness :
  (getPackageJson Packages.nowhere "/tmp/a.js" = None /\
   forall x, match_ (fst (getNpmignore Packages.nowhere "/tmp/a.js" initial)) x = false) /\
  ((reachable Packages.bare initial /\ manifestPerFile Packages.bare /\
    getPackageJson Packages.bare "/pkg/a.js"
    = Some (Packages.manifest JsUndefined (JsString "index.js"))) /\
   (parseWhiteList Packages.bare JsUndefined = None /\
    fst (parseNpmignore Packages.bare "/pkg" false initial) = None) /\
   forall x, match_ (fst (getNpmignore Packages.bare "/pkg/a.js" initial)) x = false).
Proof.
  destruct nothing_ignored_without_rules as [Hnone Hbare].
  split.
  - split; [reflexivity|].
    exact (proj2 (Hnone Packages.nowhere initial "/tmp/a.js" eq_refl)).
  - split; [split; [constructor | split; [apply package_manifestPerFile | reflexivity]]|].
    split; [split; reflexivity|].
    exact (proj2 (Hbare Packages.bare initial "/pkg/a.js" _ (reachable_initial _)
                    (package_manifestPerFile _ _ _) eq_refl eq_refl eq_refl)).
Defined.



(** C9 on a manifest whose [main] is null, asked about a file named
    [null]: the filter lets it through, and the star of the [.npmignore]
    makes it ignorable. *)
Lemma absent_main_protects_nothing_witness :
  let p := Packages.manifest JsUndefined JsNull in
  isString (main p) = false /\
  notMainFile (path.dirname (filePath p)) (mainFilePathOf p) "null" = true /\
  filterNeverIgnoredFiles p "null" = true /\
  match_ (fst (getNpmignore Packages.starNoMain "/pkg/null" initial)) "null" = true.
Proof.
  cbv zeta.
  destruct (absent_main_protects_nothing (Packages.manifest JsUndefined JsNull) eq_refl)
    as [_ H].
  destruct (H "null") as [Hclause Hfilter].
  split; [reflexivity|]. split; [exact Hclause|].
  split; [rewrite Hfilter; reflexivity | reflexivity].
Defined.

(** C10 on the package whose [.npmignore] holds the star: the change log
    below [docs] is kept, the [package.json] below [sub] is ignorable. *)
Lemma protection_by_basename_witness :
  let matcher := fst (getNpmignore Packages.starIgnored "/pkg/lib/index.js" initial) in
  reachable Packages.starIgnored initial /\
  ((isFileName "History.md" = true /\ protectedName "History.md" = true) /\
   match_ matcher ("a/b/c" +:+ "/" +:+ "History.md") = false) /\
  match_ matcher "docs/CHANGELOG.md" = false /\
  match_ matcher "sub/package.json" = true.
Proof.
  cbv zeta.
  destruct (protection_by_basename Packages.starIgnored initial "/pkg/lib/index.js"
              (reachable_initial _)) as (Hdir & Hdocs & _).
  split; [constructor|].
  split; [split; [split; reflexivity | exact (Hdir "a/b/c" "History.md" eq_refl eq_refl)]|].
  split; [exact Hdocs | reflexivity].
Defined.

(** * Further properties of the code *)

(** ** When a path is ignorable *)

Lemma parseNpmignore_predicate w basedir filesFieldExists st :
  fst (parseNpmignore w basedir filesFieldExists st) =
  if fileExists w (path.join basedir ".npmignore")
  then Some (Fn.not (compile w (readLines w (path.join basedir ".npmignore"))))
  else if filesFieldExists then None
  else if fileExists w (path.join basedir ".gitignore")
  then Some (Fn.not (compile w (readLines w (path.join basedir ".gitignore"))))
  else None.
Proof.
  rewrite parseNpmignore_run.
  destruct (fileExists w (path.join basedir ".npmignore")); [reflexivity|].
  destruct filesFieldExists; [reflexivity|].
  destruct (fileExists w (path.join basedir ".gitignore")); reflexivity.
Qed.

(** X1. A path is reported ignorable exactly when the never-ignored filter
    lets it through and one of the filters in force drops it: the filter of
    the [files] array when [files] is an array, the filter of [.npmignore]
    when that file exists, or the filter of [.gitignore] when [files] is no
    array, [.npmignore] is missing and [.gitignore] exists. *)
Theorem ignorable_iff w st startPath p :
  reachable w st -> manifestPerFile w ->
  getPackageJson w startPath = Some p ->
  let basedir := path.dirname (filePath p) in
  let npmignore := path.join basedir ".npmignore" in
  let gitignore := path.join basedir ".gitignore" in
  forall x,
    match_ (fst (getNpmignore w startPath st)) x = true <->
    filterNeverIgnoredFiles p x = true /\
    ((exists entries,
        files p = JsArray entries /\
        compile w ("*" :: flat_map entryPatterns entries) x = false)
     \/ (fileExists w npmignore = true /\ compile w (readLines w npmignore) x = false)
     \/ (isArray (files p) = false /\ fileExists w npmignore = false /\
         fileExists w gitignore = true /\
         compile w (readLines w gitignore) x = false)).
Proof.
  intros Hr Hm Hp. cbv zeta. intros x.
  rewrite (getNpmignore_resolve _ _ _ _ Hr Hm Hp), resolve_match.
  rewrite parseNpmignore_predicate.
  destruct (files p) as [| |b|n|s|entries|fields] eqn:Hf;
    try (rewrite parseWhiteList_not_array by reflexivity; cbn [Boolean isArray];
         destruct (fileExists w (path.join (path.dirname (filePath p)) ".npmignore"));
         [|destruct (fileExists w (path.join (path.dirname (filePath p)) ".gitignore"))];
         unfold Fn.not; rewrite ?andb_true_iff, ?negb_true_iff;
         (split;
          [ intros H;
            first [ discriminate H
                  | destruct H as [H1 H2]; split; [exact H1|]; auto 7 ]
          | intros [H1 H]; decompose [ex and or] H; clear H; try congruence;
            auto ])).
  rewrite parseWhiteList_array. cbn [Boolean isArray]. unfold whiteListPatterns.
  destruct (fileExists w (path.join (path.dirname (filePath p)) ".npmignore"));
    unfold Fn.not; rewrite andb_true_iff, ?orb_true_iff, ?negb_true_iff;
    (split;
     [ intros [H1 H]; split; [exact H1|]; decompose [or] H; eauto 7
     | intros [H1 H]; decompose [ex and or] H; clear H; try congruence;
       (split; [exact H1|]);
       repeat match goal with
              | E : JsArray _ = JsArray _ |- _ => injection E as <-
              end; auto ]).
Qed.

(** ** What the never-ignored filter rejects *)

(** X2. The filter rejects a path in three cases and in no other: its
    joined path is the joined [main] of a manifest whose [main] is a string,
    it is [package.json], or its base name is a protected name. *)
Theorem filter_rejects_exactly p x :
  filterNeverIgnoredFiles p x = false <->
  (exists entry,
     main p = JsString entry /\
     path.join (path.dirname (filePath p)) x
     = path.join (path.dirname (filePath p)) entry)
  \/ x = "package.json"
  \/ protectedName (path.basename x) = true.
Proof.
  unfold filterNeverIgnoredFiles, notMainFile, notPackageJson, notProtectedName,
    mainFilePathOf.
  rewrite !andb_false_iff, !negb_false_iff, NEVER_IGNORED_protectedName,
    String.eqb_eq.
  split.
  - intros [[H|H]|H]; auto.
    destruct (main p) as [| | | |entry| |]; try discriminate H.
    left. exists entry. split; [reflexivity|]. now apply String.eqb_eq.
  - intros [(entry & He & Hj)|[H|H]]; auto.
    left; left. rewrite He. cbn [strictEquals]. now apply String.eqb_eq.
Qed.

(** ** The names [NEVER_IGNORED] matches, in full *)

Lemma lowerCase_idempotent x : lowerCase (lowerCase x) = lowerCase x.
Proof. each_ascii x. Qed.

Lemma map_lowerCase_idempotent s : map lowerCase (map lowerCase s) = map lowerCase s.
Proof.
  induction s as [|x s IH]; simpl; [reflexivity|].
  now rewrite lowerCase_idempotent, IH.
Qed.

Lemma cutAtDot_lowerCase s :
  cutAtDot (map lowerCase s)
  = (map lowerCase (fst (cutAtDot s)), option_map (map lowerCase) (snd (cutAtDot s))).
Proof.
  induction s as [|c s IH]; simpl; [reflexivity|].
  rewrite lowerCase_dot. destruct (Ascii.eqb c "."); [reflexivity|].
  rewrite IH. now destruct (cutAtDot s).
Qed.

Lemma sameName_lowerCase stem word :
  sameName (map lowerCase stem) word = sameName stem word.
Proof. unfold sameName. now rewrite map_lowerCase_idempotent. Qed.

Lemma existsb_sameName_lowerCase stem words :
  existsb (sameName (map lowerCase stem)) words = existsb (sameName stem) words.
Proof.
  induction words as [|word words IH]; simpl; [reflexivity|].
  now rewrite sameName_lowerCase, IH.
Qed.

Lemma protectedName_lowerCase name :
  protectedName (string_of_list_ascii (map lowerCase (list_ascii_of_string name)))
  = protectedName name.
Proof.
  unfold protectedName.
  rewrite list_ascii_of_string_of_list_ascii, cutAtDot_lowerCase.
  destruct (cutAtDot (list_ascii_of_string name)) as [stem [ext|]];
    cbn [fst snd option_map].
  - now rewrite existsb_sameName_lowerCase, noDot_lowerCase.
  - now rewrite existsb_sameName_lowerCase.
Qed.

(** X3. The test does not see letter case: two names that agree once their
    upper-case letters are lowered are both protected or both not. *)
Theorem NEVER_IGNORED_ignores_case a b :
  map lowerCase (list_ascii_of_string a) = map lowerCase (list_ascii_of_string b) ->
  RegExp.test NEVER_IGNORED a = RegExp.test NEVER_IGNORED b.
Proof.
  intros H. rewrite !NEVER_IGNORED_protectedName.
  rewrite <- (protectedName_lowerCase a), <- (protectedName_lowerCase b).
  now rewrite H.
Qed.

Lemma NEVER_IGNORED_ignores_case_witness :
  map lowerCase (list_ascii_of_string "ChangeLog.MD")
  = map lowerCase (list_ascii_of_string "changelog.md")
  /\ RegExp.test NEVER_IGNORED "ChangeLog.MD" = RegExp.test NEVER_IGNORED "changelog.md"
  /\ RegExp.test NEVER_IGNORED "changelog.md" = true.
Proof.
  split; [reflexivity|].
  split; [exact (NEVER_IGNORED_ignores_case "ChangeLog.MD" "changelog.md" eq_refl)
         | reflexivity].
Defined.

Lemma cutAtDot_second_part s t :
  exists stem pre, cutAtDot (s ++ "."%char :: t) = (stem, Some (pre ++ t)).
Proof.
  induction s as [|c s (stem & pre & IH)]; simpl.
  - exists [], []. reflexivity.
  - destruct (Ascii.eqb c ".").
    + exists [], (s ++ ["."%char]). now rewrite <- app_assoc.
    + rewrite IH. eauto.
Qed.

Lemma noDot_with_dot pre t : noDot (pre ++ "."%char :: t) = false.
Proof.
  unfold noDot. rewrite forallb_app. simpl. apply andb_false_r.
Qed.

(** X4. The literal matches a name exactly when the name is a stem and a
    rest, where the stem is [readme] and the rest an extension, or the stem
    is one of [license], [licence], [changes], [changelog], [history] and
    the rest is empty or an extension, letter case apart.  So no name with
    two dots is protected. *)
Theorem NEVER_IGNORED_exact :
  (forall name,
     RegExp.test NEVER_IGNORED name = true <->
     exists stem rest,
       list_ascii_of_string name = stem ++ rest /\
       ((sameName stem "readme" = true /\ isExtension rest)
        \/ (existsb (sameName stem) stemsOptionalExtension = true
            /\ (rest = [] \/ isExtension rest)))) /\
  (forall a b c,
     RegExp.test NEVER_IGNORED (a +:+ "." +:+ b +:+ "." +:+ c) = false).
Proof.
  split.
  - intros name. rewrite NEVER_IGNORED_protectedName. unfold protectedName, isExtension.
    split.
    + pose proof (cutAtDot_inv (list_ascii_of_string name)) as Hcut.
      destruct (cutAtDot (list_ascii_of_string name)) as [stem [ext|]];
        destruct Hcut as [Hs Hstem]; intros H.
      * apply andb_true_iff in H as [H Hext]. cbn [existsb] in H.
        exists stem, ("."%char :: ext). split; [exact Hs|].
        apply orb_true_iff in H as [H|H]; [left|right]; eauto 6.
      * exists stem, []. rewrite app_nil_r. auto.
    + intros (stem & rest & Hs & H). rewrite Hs.
      assert (noDot stem = true) as Hstem.
      { apply stems_noDot. cbn [existsb].
        destruct H as [[H _]|[H _]]; rewrite H; auto using orb_true_r. }
      destruct H as [[H (ext & -> & Hext)]|[H [->|(ext & -> & Hext)]]].
      * rewrite cutAtDot_ext by exact Hstem. cbn [existsb]. now rewrite H, Hext.
      * rewrite app_nil_r, cutAtDot_stem by exact Hstem. exact H.
      * rewrite cutAtDot_ext by exact Hstem. cbn [existsb].
        now rewrite H, orb_true_r, Hext.
  - intros a b c. rewrite NEVER_IGNORED_protectedName. unfold protectedName.
    rewrite !list_ascii_of_string_app.
    change (list_ascii_of_string ".") with ["."%char]. cbn [app].
    destruct (cutAtDot_second_part (list_ascii_of_string a)
                (list_ascii_of_string b ++ "."%char :: list_ascii_of_string c))
      as (stem & pre & ->).
    rewrite app_assoc, noDot_with_dot. apply andb_false_r.
Qed.

(** ** The replacement by [TAIL_SLASH], in full *)

Lemma dropWhile_head {A} (f : A -> bool) l :
  match path.dropWhile f l with
  | x :: _ => f x = false
  | [] => True
  end.
Proof.
  induction l as [|x l IH]; simpl; [exact I|].
  destruct (f x) eqn:E; [exact IH | exact E].
Qed.

Lemma takeWhile_dropWhile {A} (f : A -> bool) l :
  l = path.takeWhile f l ++ path.dropWhile f l.
Proof.
  induction l as [|x l IH]; simpl; [reflexivity|].
  destruct (f x); simpl; [now rewrite <- IH | reflexivity].
Qed.

Lemma takeWhile_slashes l :
  path.takeWhile path.isPosixPathSeparator l
  = repeat "/"%char (List.length (path.takeWhile path.isPosixPathSeparator l)).
Proof.
  induction l as [|x l IH]; simpl; [reflexivity|].
  destruct (path.isPosixPathSeparator x) eqn:E; [|reflexivity].
  apply Ascii.eqb_eq in E as ->. simpl. now rewrite <- IH.
Qed.

Lemma dropWhile_slashes k l :
  path.dropWhile path.isPosixPathSeparator (repeat "/"%char k ++ l)
  = path.dropWhile path.isPosixPathSeparator l.
Proof. induction k as [|k IH]; simpl; auto. Qed.

Lemma strip_decompose l : exists k, l = strip l ++ repeat "/"%char k.
Proof.
  exists (List.length (path.takeWhile path.isPosixPathSeparator (rev l))).
  unfold strip. rewrite <- takeWhile_slashes.
  rewrite <- (rev_involutive l) at 1.
  rewrite (takeWhile_dropWhile path.isPosixPathSeparator (rev l)) at 1.
  rewrite rev_app_distr. f_equal.
  rewrite takeWhile_slashes. apply rev_repeat.
Qed.

Lemma strip_unique r k :
  match rev r with c :: _ => path.isPosixPathSeparator c | [] => false end = false ->
  strip (r ++ repeat "/"%char k) = r.
Proof.
  intros H. unfold strip. rewrite rev_app_distr, rev_repeat, dropWhile_slashes.
  destruct (rev r) as [|c r'] eqn:E.
  - simpl. now apply (f_equal (@rev ascii)) in E; rewrite rev_involutive in E.
  - simpl. rewrite H. rewrite <- E. apply rev_involutive.
Qed.

Lemma string_of_list_ascii_app a b :
  string_of_list_ascii (a ++ b) = string_of_list_ascii a +:+ string_of_list_ascii b.
Proof.
  rewrite <- (string_of_list_ascii_of_string
                (string_of_list_ascii a +:+ string_of_list_ascii b)).
  now rewrite list_ascii_of_string_app, !list_ascii_of_string_of_list_ascii.
Qed.

(** X5. The replacement cuts a path into what it returns and a run of
    slashes: the result does not end with a slash, the path is the result
    followed by slashes only, and the result is the only such prefix.  So
    the number of slashes an entry of [files] ends with is of no account, and
    a second replacement changes nothing. *)
Theorem replace_TAIL_SLASH_strips file :
  let r := RegExp.replace TAIL_SLASH file "" in
  endsWithSlash r = false /\
  (exists k, file = r +:+ slashes k) /\
  (forall r' k',
     endsWithSlash r' = false -> file = r' +:+ slashes k' -> r = r') /\
  RegExp.replace TAIL_SLASH r "" = r.
Proof.
  cbv zeta. rewrite !replace_TAIL_SLASH. unfold stripTailSlashes, endsWithSlash, slashes.
  set (l := list_ascii_of_string file).
  assert (match rev (strip l) with
          | c :: _ => path.isPosixPathSeparator c
          | [] => false
          end = false) as Hend.
  { unfold strip. rewrite rev_involutive.
    pose proof (dropWhile_head path.isPosixPathSeparator (rev l)) as H.
    destruct (path.dropWhile path.isPosixPathSeparator (rev l)); auto. }
  rewrite list_ascii_of_string_of_list_ascii.
  split; [exact Hend|]. split; [|split].
  - destruct (strip_decompose l) as [k Hk]. exists k.
    rewrite <- string_of_list_ascii_app, <- Hk.
    unfold l. now rewrite string_of_list_ascii_of_string.
  - intros r' k' Hr' Hf.
    assert (l = list_ascii_of_string r' ++ repeat "/"%char k') as Hl.
    { unfold l. rewrite Hf, list_ascii_of_string_app.
      now rewrite list_ascii_of_string_of_list_ascii. }
    rewrite Hl, strip_unique by exact Hr'. apply string_of_list_ascii_of_string.
  - f_equal. rewrite <- (app_nil_r (strip l)) at 1.
    exact (strip_unique (strip l) 0 Hend).
Qed.

(** ** The Pattern Set of the whitelist *)

Lemma flat_map_strings entries :
  flat_map entryPatterns (List.filter isString entries) = flat_map entryPatterns entries.
Proof.
  induction entries as [|entry entries IH]; simpl; [reflexivity|].
  destruct entry; simpl; now rewrite IH.
Qed.

(** X6. Entries of [files] that are no strings leave no mark: the parser
    returns for an array what it returns for the array of its string
    entries, and for two arrays one after the other the Pattern Set of the
    first followed by the patterns of the second. *)
Theorem parseWhiteList_skips_non_strings w entries :
  parseWhiteList w (JsArray entries)
  = parseWhiteList w (JsArray (List.filter isString entries))
  /\ forall more,
       parseWhiteList w (JsArray (entries ++ more))
       = Some (Fn.not (compile w (whiteListPatterns entries
                                  ++ flat_map entryPatterns (List.filter isString more)))).
Proof.
  split.
  - rewrite !parseWhiteList_array. unfold whiteListPatterns.
    now rewrite flat_map_strings.
  - intros more. rewrite parseWhiteList_array. unfold whiteListPatterns.
    now rewrite flat_map_app, flat_map_strings.
Qed.

(** X7. Whatever the array, the Pattern Set is the star followed by
    negated patterns only, two for each string entry: a whitelist excludes
    by its first pattern alone and only re-includes after it. *)
Theorem whitelist_pattern_shape entries :
  exists patterns,
    (forall w, parseWhiteList w (JsArray entries)
               = Some (Fn.not (compile w ("*" :: patterns)))) /\
    Forall (fun pattern => exists rest, pattern = "!" +:+ rest) patterns /\
    List.length patterns = 2 * List.length (List.filter isString entries).
Proof.
  exists (flat_map entryPatterns entries). split; [|split].
  - intros w. apply parseWhiteList_array.
  - induction entries as [|entry entries IH]; simpl; [constructor|].
    apply Forall_app. split; [|exact IH].
    destruct entry; simpl; repeat constructor; eauto.
  - induction entries as [|entry entries IH]; simpl; [reflexivity|].
    rewrite length_app, IH. destruct entry; simpl; lia.
Qed.

(** ** File-system accesses and the cache *)

Lemma Boolean_parseWhiteList w fs : Boolean (parseWhiteList w fs) = isArray fs.
Proof.
  destruct (isArray fs) eqn:E.
  - destruct fs; try discriminate E. now rewrite parseWhiteList_array.
  - now rewrite parseWhiteList_not_array.
Qed.

Lemma parseNpmignore_trace w p st :
  trace (snd (parseNpmignore w (path.dirname (filePath p)) (isArray (files p)) st))
  = trace st ++ missAccesses w p.
Proof.
  rewrite parseNpmignore_run. unfold missAccesses.
  destruct (fileExists w (path.join (path.dirname (filePath p)) ".npmignore"));
    [reflexivity|].
  destruct (isArray (files p)); [reflexivity|].
  destruct (fileExists w (path.join (path.dirname (filePath p)) ".gitignore"));
    reflexivity.
Qed.

(** X8. A call that finds no manifest, or finds its Matcher in the cache,
    leaves the state as it is: no file is probed or read.  A miss probes
    [.npmignore]; it goes on to [.gitignore] only when [.npmignore] is
    missing and [files] is no array, so that any [files] array, the empty
    one too, switches the fallback off.  A miss reads one file at most, and
    only one it has just found. *)
Theorem getNpmignore_accesses w st startPath :
  match getPackageJson w startPath with
  | None => snd (getNpmignore w startPath st) = st
  | Some p =>
      match cache st !! filePath p with
      | Some _ => snd (getNpmignore w startPath st) = st
      | None =>
          trace (snd (getNpmignore w startPath st)) = trace st ++ missAccesses w p
          /\ (forall file,
                In (ReadFile file) (missAccesses w p) ->
                fileExists w file = true /\ In (Exists file) (missAccesses w p))
          /\ List.length (List.filter (fun op => match op with
                                                 | ReadFile _ => true
                                                 | Exists _ => false
                                                 end) (missAccesses w p)) <= 1
      end
  end.
Proof.
  destruct (getPackageJson w startPath) as [p|] eqn:Hp.
  - destruct (cache st !! filePath p) as [hit|] eqn:Hc.
    + now rewrite (getNpmignore_hit _ _ _ _ _ Hp Hc).
    + rewrite (getNpmignore_miss _ _ _ _ Hp Hc). cbn [snd trace].
      rewrite Boolean_parseWhiteList, parseNpmignore_trace.
      split; [reflexivity|]. unfold missAccesses.
      destruct (fileExists w (path.join (path.dirname (filePath p)) ".npmignore"))
        eqn:E1;
        [|destruct (isArray (files p));
          [|destruct (fileExists w (path.join (path.dirname (filePath p)) ".gitignore"))
              eqn:E2]];
        (split; [|simpl; lia]); intros file Hin; simpl in Hin;
        repeat match goal with
               | H : _ \/ _ |- _ => destruct H as [H|H]
               | H : False |- _ => destruct H
               | H : Exists _ = ReadFile _ |- _ => discriminate H
               | H : ReadFile _ = ReadFile _ |- _ => injection H as <-
               end; simpl; auto.
  - now rewrite (getNpmignore_not_found _ _ _ Hp).
Qed.

(** X10. The cache does not change the answers: with a locator that reads
    the manifest from its file, a call in any state reached by earlier
    calls and evictions returns the Matcher a freshly loaded module would
    return. *)
Theorem caching_is_transparent w st startPath :
  reachable w st -> manifestPerFile w ->
  fst (getNpmignore w startPath st) = fst (getNpmignore w startPath initial).
Proof.
  intros Hr Hm. destruct (getPackageJson w startPath) as [p|] eqn:Hp.
  - rewrite (getNpmignore_resolve _ _ _ _ Hr Hm Hp).
    now rewrite (getNpmignore_resolve _ _ _ _ (reachable_initial w) Hm Hp).
  - now rewrite !(getNpmignore_not_found _ _ _ Hp).
Qed.

Lemma caching_is_transparent_witness :
  let st := snd (getNpmignore Packages.both "/pkg/bin/x"
                   (snd (getNpmignore Packages.both "/pkg/test/a.js" initial))) in
  (reachable Packages.both st /\ manifestPerFile Packages.both) /\
  cache st !! "/pkg/package.json"
  = Some (fst (getNpmignore Packages.both "/pkg/lib/index.js" initial)) /\
  fst (getNpmignore Packages.both "/pkg/lib/index.js" st)
  = fst (getNpmignore Packages.both "/pkg/lib/index.js" initial).
Proof.
  cbv zeta.
  assert (reachable Packages.both
            (snd (getNpmignore Packages.both "/pkg/bin/x"
                    (snd (getNpmignore Packages.both "/pkg/test/a.js" initial)))))
    as Hr by (do 2 apply reachable_call; apply reachable_initial).
  split; [split; [exact Hr | apply package_manifestPerFile]|].
  split; [vm_compute; reflexivity|].
  exact (caching_is_transparent Packages.both _ "/pkg/lib/index.js" Hr
           (package_manifestPerFile _ _ _)).
Defined.

(** X1 on the package with both a whitelist and an [.npmignore]:
    [lib/test/a.js] is whitelisted and yet ignorable, by the [.npmignore]. *)
Lemma ignorable_iff_witness :
  let w := Packages.both in
  let p := Packages.manifest (JsArray [JsString "lib/"; JsNumber 3; JsString "bin"])
             (JsString "./lib/index.js") in
  (reachable w initial /\ manifestPerFile w /\
   getPackageJson w "/pkg/lib/index.js" = Some p) /\
  (filterNeverIgnoredFiles p "lib/test/a.js" = true /\
   compile w ("*" :: flat_map entryPatterns [JsString "lib/"; JsNumber 3; JsString "bin"])
     "lib/test/a.js" = true /\
   fileExists w "/pkg/.npmignore" = true /\
   compile w (readLines w "/pkg/.npmignore") "lib/test/a.js" = false) /\
  match_ (fst (getNpmignore w "/pkg/lib/index.js" initial)) "lib/test/a.js" = true.
Proof.
  cbv zeta.
  split; [split; [constructor | split; [apply package_manifestPerFile | reflexivity]]|].
  split; [repeat split; vm_compute; reflexivity|].
  apply (ignorable_iff Packages.both initial "/pkg/lib/index.js" _
           (reachable_initial _) (package_manifestPerFile _ _ _) eq_refl).
  split; [vm_compute; reflexivity|].
  right; left. split; vm_compute; reflexivity.
Defined.

(** X11. In every state reached by calls and evictions, each cache key is
    the file path of a manifest the locator returns for some start path, and
    the Matcher cached under it is the one a freshly loaded module returns
    for that start path. *)
Theorem cache_holds_fresh_answers w st key data :
  reachable w st ->
  cache st !! key = Some data ->
  exists startPath p,
    getPackageJson w startPath = Some p /\ filePath p = key /\
    data = fst (getNpmignore w startPath initial).
Proof.
  intros Hr Hk.
  destruct (cache_holds_resolved _ _ Hr _ _ Hk) as (startPath & p & Hp & Hf & ->).
  exists startPath, p. repeat split; auto.
  now rewrite (getNpmignore_miss w startPath initial p Hp (lookup_empty _)).
Qed.

Lemma cache_holds_fresh_answers_witness :
  let st := snd (getNpmignore Packages.starIgnored "/pkg/lib/a.js" initial) in
  let data := fst (getNpmignore Packages.starIgnored "/pkg/lib/a.js" initial) in
  (reachable Packages.starIgnored st /\
   cache st !! "/pkg/package.json" = Some data) /\
  exists startPath p,
    getPackageJson Packages.starIgnored startPath = Some p /\
    filePath p = "/pkg/package.json" /\
    data = fst (getNpmignore Packages.starIgnored startPath initial).
Proof.
  cbv zeta.
  assert (reachable Packages.starIgnored
            (snd (getNpmignore Packages.starIgnored "/pkg/lib/a.js" initial))) as Hr
    by (apply reachable_call, reachable_initial).
  assert (cache (snd (getNpmignore Packages.starIgnored "/pkg/lib/a.js" initial))
            !! "/pkg/package.json"
          = Some (fst (getNpmignore Packages.starIgnored "/pkg/lib/a.js" initial)))
    as Hk by (vm_compute; reflexivity).
  split; [split; [exact Hr | exact Hk]|].
  exact (cache_holds_fresh_answers Packages.starIgnored _ _ _ Hr Hk).
Defined.
